(** * TexitEditor: offset/index conversion, find and replace, highlighting,
      the dirty flag and autosave

    A shallow embedding of [texiteditor.py].  Python integers are [Z], a
    Python [str] is the list of its Unicode code points, and a Tk index
    ["line.col"] is the pair of the two integers it renders. *)

From Stdlib Require Import ZArith List Bool Lia String Ascii DecimalString Sorted.
Import ListNotations.
Local Open Scope string_scope.
Local Open Scope list_scope.
Local Open Scope Z_scope.

(** ** Python strings *)

Definition char := Z.
Definition str := list char.

Definition LF : char := 10.
Definition CR : char := 13.

(** [len(s)] *)
Definition len {A} (l : list A) : Z := Z.of_nat (List.length l).

(** A literal of the development, read as a Python string. *)
Fixpoint py (s : string) : str :=
  match s with
  | EmptyString => []
  | String a rest => Z.of_N (N_of_ascii a) :: py rest
  end.

(** The line boundaries of [str.splitlines]: \n \v \f \r \x1c \x1d \x1e
    \x85 \u2028 \u2029 (and \r\n, taken as one boundary below). *)
Definition is_linebreak (c : char) : bool :=
  (c =? 10) || (c =? 11) || (c =? 12) || (c =? 13) || (c =? 28) || (c =? 29)
  || (c =? 30) || (c =? 133) || (c =? 8232) || (c =? 8233).

(** [s.splitlines(keepends)] *)
Fixpoint splitlines (keepends : bool) (s : str) : list str :=
  match s with
  | [] => []
  | c :: rest =>
      if is_linebreak c then
        match rest with
        | d :: rest' =>
            if (c =? CR) && (d =? LF)
            then (if keepends then [c; d] else []) :: splitlines keepends rest'
            else (if keepends then [c] else []) :: splitlines keepends rest
        | [] => [if keepends then [c] else []]
        end
      else
        match splitlines keepends rest with
        | [] => [[c]]
        | l :: ls => (c :: l) :: ls
        end
  end.

(** [str.isspace] on one character: the code points Python counts as
    whitespace. *)
Definition isspace (c : char) : bool :=
  ((9 <=? c) && (c <=? 13)) || ((28 <=? c) && (c <=? 32)) || (c =? 133)
  || (c =? 160) || (c =? 5760) || ((8192 <=? c) && (c <=? 8202))
  || (c =? 8232) || (c =? 8233) || (c =? 8239) || (c =? 8287) || (c =? 12288).

Fixpoint lstrip (s : str) : str :=
  match s with
  | c :: rest => if isspace c then lstrip rest else s
  | [] => []
  end.

(** [s.strip()] *)
Definition strip (s : str) : str := rev (lstrip (rev (lstrip s))).

(** ** Tk indices *)

Record tkindex := Idx { line : Z; col : Z }.

(** sum(len(l) for l in lines) *)
Definition sum_len (lines : list str) : Z :=
  fold_right (fun l acc => len l + acc) 0 lines.

(** The loop shared by both [_int_to_index] methods: walk [text], counting
    [pos] down, a line up at every "\n" and a column up otherwise. *)
Fixpoint scan (text : str) (pos line col : Z) : tkindex :=
  match text with
  | [] => Idx line col
  | ch :: rest =>
      if pos =? 0 then Idx line col
      else if ch =? LF then scan rest (pos - 1) (line + 1) 0
      else scan rest (pos - 1) line (col + 1)
  end.

(** ** Exceptions and stateful methods

    A method is a function of the state it runs in; it returns a value or
    raises, and the state it leaves is kept in both cases. *)

Inductive exn :=
| ReError    (* re.error *)
| TclError   (* tk.TclError *)
| OSError.   (* a failed open, write or mkdir *)

Inductive outcome (A : Type) :=
| Returned (a : A)
| Raised (e : exn).
Arguments Returned {A} a.
Arguments Raised {A} e.

Definition M (S A : Type) : Type := S -> outcome A * S.

Definition ret {S A} (a : A) : M S A := fun s => (Returned a, s).

Definition bind {S A B} (m : M S A) (k : A -> M S B) : M S B :=
  fun s =>
    match m s with
    | (Returned a, s') => k a s'
    | (Raised e, s') => (Raised e, s')
    end.

Definition raise {S A} (e : exn) : M S A := fun s => (Raised e, s).
Definition gets {S A} (f : S -> A) : M S A := fun s => (Returned (f s), s).
Definition modify {S} (f : S -> S) : M S unit := fun s => (Returned tt, f s).

(** try: m  except Exception as e: h e *)
Definition try_except {S A} (m : M S A) (h : exn -> M S A) : M S A :=
  fun s =>
    match m s with
    | (Returned a, s') => (Returned a, s')
    | (Raised e, s') => h e s'
    end.

(** try: m  finally: fin *)
Definition try_finally {S A} (m : M S A) (fin : M S unit) : M S A :=
  fun s =>
    match m s with
    | (r, s') =>
        match fin s' with
        | (Returned _, s'') => (r, s'')
        | (Raised e, s'') => (Raised e, s'')
        end
    end.

Declare Scope method_scope.
Delimit Scope method_scope with method.
Notation "x <- m ;; k" := (bind m (fun x => k))
  (at level 100, m at next level, right associativity) : method_scope.
Notation "m ;;; k" := (bind m (fun _ => k))
  (at level 100, right associativity) : method_scope.
Local Open Scope method_scope.


(** ** The Tk text widget

    The part of [tk.Text] the editor calls.  Positions are offsets into the
    content, [0 .. len content]; the newline the widget keeps after the
    content is not part of it, and an index behind the content resolves to
    its end.  The [sel] tag holds at most one range, as the widget's
    bindings and [find_next] leave it. *)

Module Tk.

Record Text := MkText {
  content : str;            (* get("1.0", "end-1c") *)
  insert_mark : Z;          (* the insert mark, 0 <= insert_mark <= len content *)
  sel : option (Z * Z)      (* the range tagged sel: Some (a, b) with a < b *)
}.

(** The index expressions passed by the editor. *)
Inductive pos :=
| At (i : tkindex)    (* "line.col" *)
| End                 (* "end" *)
| EndMinus1c          (* "end-1c" *)
| Insert              (* "insert" *)
| SelFirst            (* "sel.first" *)
| SelLast.            (* "sel.last" *)

(** Walk to the column [c] of the line [l] lines further down; lines end
    at "\n" only, a column behind its line stops at the line's newline. *)
Fixpoint seek (text : str) (l c off : Z) : Z :=
  match text with
  | [] => off
  | ch :: rest =>
      if 0 <? l then seek rest (if ch =? LF then l - 1 else l) c (off + 1)
      else if (c <=? 0) || (ch =? LF) then off
      else seek rest l (c - 1) (off + 1)
  end.

Definition offset_of (text : str) (i : tkindex) : Z :=
  if line i <? 1 then 0 else seek text (line i - 1) (col i) 0.

(** The canonical "line.col" of an offset. *)
Definition index_of (text : str) (off : Z) : tkindex := scan text off 1 0.

Definition resolve (w : Text) (p : pos) : outcome Z :=
  match p with
  | At i => Returned (offset_of (content w) i)
  | End | EndMinus1c => Returned (len (content w))
  | Insert => Returned (insert_mark w)
  | SelFirst => match sel w with Some (a, _) => Returned a | None => Raised TclError end
  | SelLast => match sel w with Some (_, b) => Returned b | None => Raised TclError end
  end.

Definition resolved (p : pos) : M Text Z :=
  fun w => (resolve w p, w).

(** get("1.0", "end-1c") *)
Definition get_all : M Text str := gets content.

(** index(p) *)
Definition index (p : pos) : M Text tkindex :=
  off <- resolved p ;; w <- gets (fun w => w) ;; ret (index_of (content w) off).

(** tag_ranges("sel") *)
Definition tag_ranges_sel : M Text (option (Z * Z)) := gets sel.

(** tag_remove("sel", "1.0", "end") *)
Definition tag_remove_sel_all : M Text unit :=
  modify (fun w => MkText (content w) (insert_mark w) None).

(** tag_add("sel", p1, p2): nothing is tagged unless p1 is before p2. *)
Definition tag_add_sel (p1 p2 : pos) : M Text unit :=
  a <- resolved p1 ;; b <- resolved p2 ;;
  modify (fun w =>
    if a <? b then
      MkText (content w) (insert_mark w)
        (match sel w with
         | None => Some (a, b)
         | Some (a0, b0) => Some (Z.min a0 a, Z.max b0 b)
         end)
    else w).

(** mark_set("insert", p) *)
Definition mark_set_insert (p : pos) : M Text unit :=
  a <- resolved p ;;
  modify (fun w => MkText (content w) a (sel w)).

(** Where an offset lands once [a .. b) is deleted. *)
Definition after_delete (a b x : Z) : Z :=
  if x <=? a then x else if x <=? b then a else x - (b - a).

(** delete(p1, p2) *)
Definition delete (p1 p2 : pos) : M Text unit :=
  a <- resolved p1 ;; b <- resolved p2 ;;
  modify (fun w =>
    if a <? b then
      MkText (firstn (Z.to_nat a) (content w) ++ skipn (Z.to_nat b) (content w))
        (after_delete a b (insert_mark w))
        (match sel w with
         | Some (s, e) =>
             if after_delete a b s <? after_delete a b e
             then Some (after_delete a b s, after_delete a b e) else None
         | None => None
         end)
    else w).

(** insert(p, s): the insert mark has right gravity, and the new
    characters are tagged only inside a tagged range. *)
Definition insert (p : pos) (s : str) : M Text unit :=
  a <- resolved p ;;
  modify (fun w =>
    MkText (firstn (Z.to_nat a) (content w) ++ s ++ skipn (Z.to_nat a) (content w))
      (if a <=? insert_mark w then insert_mark w + len s else insert_mark w)
      (match sel w with
       | Some (x, y) =>
           Some (if a <=? x then x + len s else x, if a <? y then y + len s else y)
       | None => None
       end)).

(** see(p) scrolls the view and changes nothing modelled here. *)
Definition see (p : pos) : M Text unit := ret tt.

End Tk.

(** ** The regex engine

    Python's [re] module is a collaborator of the editor, not part of it:
    what it answers is a parameter of the development. *)

Record ReEngine := {
  Regex : Type;
  (** re.compile(pattern, flags) with IGNORECASE on or off; None when it
      raises re.error *)
  re_compile : str -> bool -> option Regex;
  (** Pattern.search(text, pos): (match.start(), match.end()) *)
  re_search : Regex -> str -> Z -> option (Z * Z);
  (** Pattern.sub(repl, text); None when the template raises re.error *)
  re_sub : Regex -> str -> str -> option str;
  (** whether two characters match each other under IGNORECASE *)
  re_ci_eq : char -> char -> bool;
  (** a replacement template holding a backslash, for a pattern without
      groups: from the matched text to what replaces it; None when the
      template raises re.error *)
  re_template : str -> option (str -> str)
}.

Module FindReplaceDialog.

(** The dialog's variables. *)
Record Dialog := MkDialog {
  find_var : str;
  replace_var : str;
  regex_var : bool;
  case_var : bool
}.

(** [_index_to_int(index, text)]: [range] of a negative bound is empty,
    as [Z.to_nat] of it is 0. *)
Definition _index_to_int (index : tkindex) (text : str) : Z :=
  let lines := splitlines true text in
  let pos := sum_len (firstn (Z.to_nat (Z.min (line index - 1) (len lines))) lines) in
  pos + col index.

(** [_int_to_index(pos)] on the text the widget holds. *)
Definition int_to_index (text : str) (pos : Z) : tkindex :=
  if pos <=? 0 then Idx 1 0
  else if pos >=? len text then
    let last_line := len (splitlines false text) in
    let last_col :=
      if last_line =? 0 then 0 else len (last (splitlines false text) []) in
    Idx (Z.max 1 last_line) last_col
  else scan text pos 1 0.

Definition _int_to_index (pos : Z) : M Tk.Text tkindex :=
  text <- Tk.get_all ;; ret (int_to_index text pos).

Section WithEngine.

Variable E : ReEngine.

(** What [re.compile] returned: the escaped needle, which matches
    itself and nothing else ([re.escape]'s contract), or the engine's
    object for a pattern in regex mode. *)
Inductive pattern :=
| Escaped (needle : str) (ignorecase : bool)
| Compiled (r : Regex E).

Definition char_eq (ignorecase : bool) (a b : char) : bool :=
  if ignorecase then re_ci_eq E a b else a =? b.

(** The needle matches at the head of [text]. *)
Fixpoint match_here (ic : bool) (needle text : str) : bool :=
  match needle, text with
  | [], _ => true
  | a :: needle', b :: text' => char_eq ic a b && match_here ic needle' text'
  | _ :: _, [] => false
  end.

(** The first offset, from [pos] on, where the needle matches; [text]
    is what is left of the document from offset [off]. *)
Fixpoint find_from (ic : bool) (needle text : str) (pos off : Z) : option Z :=
  match text with
  | [] => if (pos <=? off) && match_here ic needle text then Some off else None
  | _ :: rest =>
      if (pos <=? off) && match_here ic needle text then Some off
      else find_from ic needle rest pos (off + 1)
  end.

(** pattern.search(text, pos=pos) *)
Definition pattern_search (p : pattern) (text : str) (pos : Z) : option (Z * Z) :=
  match p with
  | Escaped needle ic =>
      match find_from ic needle text pos 0 with
      | Some i => Some (i, i + len needle)
      | None => None
      end
  | Compiled r => re_search E r text pos
  end.

Definition BACKSLASH : char := 92.

(** A template without a backslash stands for itself. *)
Definition template (repl : str) : option (str -> str) :=
  if existsb (Z.eqb BACKSLASH) repl then re_template E repl
  else Some (fun _ => repl).

(** Replace the matches of a needle left to right, none overlapping
    the one before; [skip] characters of the last match are still to
    be passed over. *)
Fixpoint replace_matches (ic : bool) (needle : str) (f : str -> str)
         (text : str) (skip : nat) : str :=
  match text with
  | [] => []
  | c :: rest =>
      match skip with
      | S k => replace_matches ic needle f rest k
      | O =>
          if match_here ic needle text
          then f (firstn (List.length needle) text)
                 ++ replace_matches ic needle f rest (List.length needle - 1)%nat
          else c :: replace_matches ic needle f rest 0
      end
  end.

(** pattern.sub(repl, text) *)
Definition pattern_sub (p : pattern) (repl text : str) : option str :=
  match p with
  | Escaped needle ic =>
      match template repl with
      | Some f => Some (replace_matches ic needle f text 0)
      | None => None
      end
  | Compiled r => re_sub E r repl text
  end.

(** The lines of [_search] and [replace_all] that build [pattern]. *)
Definition compile_needle (d : Dialog) : M Tk.Text pattern :=
  let flags_ignorecase := negb (case_var d) in
  if regex_var d then
    match re_compile E (find_var d) flags_ignorecase with
    | Some r => ret (Compiled r)
    | None => raise ReError
    end
  else ret (Escaped (find_var d) flags_ignorecase).

Definition span_indices (m : Z * Z) : M Tk.Text (option (tkindex * tkindex)) :=
  s <- _int_to_index (fst m) ;;
  e <- _int_to_index (snd m) ;;
  ret (Some (s, e)).

Definition _search (d : Dialog) (start : Tk.pos) : M Tk.Text (option (tkindex * tkindex)) :=
  let needle := find_var d in
  match needle with
  | [] => ret None
  | _ :: _ =>
      pattern <- compile_needle d ;;
      text <- Tk.get_all ;;
      start_idx <- Tk.index start ;;
      let start_index := _index_to_int start_idx text in
      match pattern_search pattern text (start_index + 1) with
      | Some m => span_indices m
      | None =>
          (* wrap search *)
          match pattern_search pattern text 0 with
          | Some m => span_indices m
          | None => ret None
          end
      end
  end.

Definition find_next (d : Dialog) : M Tk.Text unit :=
  res <- _search d Tk.Insert ;;
  match res with
  | Some (start, end_) =>
      Tk.tag_remove_sel_all ;;;
      Tk.tag_add_sel (Tk.At start) (Tk.At end_) ;;;
      Tk.mark_set_insert (Tk.At end_) ;;;
      Tk.see (Tk.At start)
  | None => ret tt
  end.

Definition replace_one (d : Dialog) : M Tk.Text unit :=
  ranges <- Tk.tag_ranges_sel ;;
  match ranges with
  | Some _ =>
      Tk.delete Tk.SelFirst Tk.SelLast ;;;
      Tk.insert Tk.Insert (replace_var d)
  | None => find_next d
  end.

Definition str_eqb (a b : str) : bool :=
  if list_eq_dec Z.eq_dec a b then true else false.

Definition replace_all (d : Dialog) : M Tk.Text unit :=
  let needle := find_var d in
  let repl := replace_var d in
  match needle with
  | [] => ret tt
  | _ :: _ =>
      text <- Tk.get_all ;;
      pattern <- compile_needle d ;;
      match pattern_sub pattern repl text with
      | None => raise ReError
      | Some new_text =>
          if negb (str_eqb new_text text) then
            Tk.delete (Tk.At (Idx 1 0)) Tk.End ;;;
            Tk.insert (Tk.At (Idx 1 0)) new_text
          else ret tt
      end
  end.

End WithEngine.

Arguments Escaped {E}.
Arguments Compiled {E}.

End FindReplaceDialog.

(** ** An engine to run the examples

    In regex mode it compiles the patterns made of ordinary characters and
    ".", which matches any character but a newline, and it folds the case
    of ASCII letters.  It has no other syntax: every other pattern is
    rejected, as the real engine rejects "(" (a group left open), and so is
    every template with a backslash. *)

Module DotEngine.

Definition special (c : char) : bool :=
  existsb (Z.eqb c) (py ".^$*+?{}[]\|()").

Definition DOT : char := 46.

Definition lower (c : char) : char :=
  if (65 <=? c) && (c <=? 90) then c + 32 else c.

Definition ci_eq (a b : char) : bool := lower a =? lower b.

(** A compiled pattern: the IGNORECASE flag and one item per character,
    None for "." *)
Definition regex : Type := bool * list (option char).

Definition compile (p : str) (ic : bool) : option regex :=
  if forallb (fun c => negb (special c) || (c =? DOT)) p
  then Some (ic, map (fun c => if c =? DOT then None else Some c) p)
  else None.

Definition item_matches (ic : bool) (i : option char) (c : char) : bool :=
  match i with
  | None => negb (c =? LF)
  | Some a => if ic then ci_eq a c else a =? c
  end.

Fixpoint items_here (ic : bool) (items : list (option char)) (text : str) : bool :=
  match items, text with
  | [], _ => true
  | i :: items', c :: text' => item_matches ic i c && items_here ic items' text'
  | _ :: _, [] => false
  end.

Fixpoint search_from (r : regex) (text : str) (pos off : Z) : option (Z * Z) :=
  match text with
  | [] =>
      if (pos <=? off) && items_here (fst r) (snd r) text
      then Some (off, off + len (snd r)) else None
  | _ :: rest =>
      if (pos <=? off) && items_here (fst r) (snd r) text
      then Some (off, off + len (snd r))
      else search_from r rest pos (off + 1)
  end.

Fixpoint sub_from (r : regex) (repl text : str) (skip : nat) : str :=
  match text with
  | [] => []
  | c :: rest =>
      match skip with
      | S k => sub_from r repl rest k
      | O =>
          if items_here (fst r) (snd r) text
          then repl ++ sub_from r repl rest (List.length (snd r) - 1)%nat
          else c :: sub_from r repl rest 0
      end
  end.

Definition engine : ReEngine := {|
  Regex := regex;
  re_compile := compile;
  re_search := fun r text pos => search_from r text pos 0;
  re_sub := fun r repl text =>
    if existsb (Z.eqb 92) repl then None
    else match snd r with
         | [] => Some (repl ++ flat_map (fun c => c :: repl) text)
         | _ :: _ => Some (sub_from r repl text 0)
         end;
  re_ci_eq := ci_eq;
  re_template := fun _ => None
|}.

End DotEngine.

(** ** The editor window *)

Module EditorApp.

Definition path := str.

(** A token type of Pygments is the path of its names below [Token]:
    [Token.Name.Builtin] is ["Name"; "Builtin"]. *)
Definition toktype := list string.

(** [t in parent]: [parent] is [t] or an ancestor of it. *)
Fixpoint tok_in (t parent : toktype) : bool :=
  match parent, t with
  | [], _ => true
  | p :: parent', x :: t' => String.eqb p x && tok_in t' parent'
  | _ :: _, [] => false
  end.

Definition tag_for (t : toktype) : string :=
  if tok_in t ["Keyword"] then "tok-kw"
  else if tok_in t ["Name"; "Builtin"] then "tok-builtin"
  else if tok_in t ["Literal"; "String"] then "tok-str"
  else if tok_in t ["Literal"; "Number"] then "tok-num"
  else if tok_in t ["Comment"] then "tok-com"
  else if tok_in t ["Operator"] then "tok-op"
  else if tok_in t ["Punctuation"] then "tok-punc"
  else if tok_in t ["Name"; "Function"] then "tok-func"
  else if tok_in t ["Name"; "Class"] then "tok-cls"
  else "tok-text".

Definition syntax_tags : list string :=
  ["tok-kw"; "tok-builtin"; "tok-str"; "tok-num"; "tok-com"; "tok-op";
   "tok-func"; "tok-cls"; "tok-punc"; "tok-text"].

(** [_int_to_index(pos, text)] *)
Definition _int_to_index (pos : Z) (text : str) : tkindex :=
  if pos <=? 0 then Idx 1 0
  else if pos >=? len text then
    let lines := splitlines false text in
    match lines with
    | [] => Idx 1 0
    | _ :: _ => Idx (len lines) (len (last lines []))
    end
  else scan text pos 1 0.

(** The callbacks handed to [root.after]. *)
Inductive callback := HighlightNow | AutosaveTick | ResetStatus.

(** What a method does to the world outside the editor's own fields. *)
Inductive event :=
| Wrote (p : path) (data : str)        (* a file opened for writing and written *)
| MadeDir (p : path)                   (* mkdir(exist_ok=True) *)
| ShowError (msg : string)             (* messagebox.showerror: a modal dialog *)
| Status (msg : string)                (* the status label *)
| Title (name : option path) (mark : bool)
| Caret (i : tkindex)                  (* the caret label *)
| TagRemove (tag : string)             (* tag_remove(tag, "1.0", "end") *)
| TagAdd (tag : string) (a b : tkindex)
| After (id ms : Z) (cb : callback)    (* root.after(ms, cb) returned id *)
| AfterCancel (id : Z).

Record App := MkApp {
  text : Tk.Text;
  file_path : option path;
  dirty : bool;
  autosave_enabled : bool;       (* settings.get("autosave_enabled", True) *)
  autosave_secs : Z;             (* int(settings.get("autosave_secs", ...)) *)
  _highlight_after_id : option Z;
  _autosave_after_id : option Z;
  after_ids : Z;                 (* the ids root.after has handed out *)
  log : list event               (* oldest first *)
}.

Definition set_text (w : Tk.Text) (a : App) : App :=
  MkApp w (file_path a) (dirty a) (autosave_enabled a) (autosave_secs a)
    (_highlight_after_id a) (_autosave_after_id a) (after_ids a) (log a).
Definition set_file_path (p : option path) (a : App) : App :=
  MkApp (text a) p (dirty a) (autosave_enabled a) (autosave_secs a)
    (_highlight_after_id a) (_autosave_after_id a) (after_ids a) (log a).
Definition set_dirty (b : bool) (a : App) : App :=
  MkApp (text a) (file_path a) b (autosave_enabled a) (autosave_secs a)
    (_highlight_after_id a) (_autosave_after_id a) (after_ids a) (log a).
Definition set_highlight_after_id (i : option Z) (a : App) : App :=
  MkApp (text a) (file_path a) (dirty a) (autosave_enabled a) (autosave_secs a)
    i (_autosave_after_id a) (after_ids a) (log a).
Definition set_autosave_after_id (i : option Z) (a : App) : App :=
  MkApp (text a) (file_path a) (dirty a) (autosave_enabled a) (autosave_secs a)
    (_highlight_after_id a) i (after_ids a) (log a).
Definition set_after_ids (n : Z) (a : App) : App :=
  MkApp (text a) (file_path a) (dirty a) (autosave_enabled a) (autosave_secs a)
    (_highlight_after_id a) (_autosave_after_id a) n (log a).
Definition set_log (l : list event) (a : App) : App :=
  MkApp (text a) (file_path a) (dirty a) (autosave_enabled a) (autosave_secs a)
    (_highlight_after_id a) (_autosave_after_id a) (after_ids a) l.

(** A call on [self.text]. *)
Definition on_text {A} (m : M Tk.Text A) : M App A :=
  fun a => match m (text a) with (r, w) => (r, set_text w a) end.

Definition emit (e : event) : M App unit :=
  modify (fun a => set_log (log a ++ [e]) a).

Definition root_after (ms : Z) (cb : callback) : M App Z :=
  id <- gets after_ids ;;
  modify (set_after_ids (id + 1)) ;;;
  emit (After id ms cb) ;;;
  ret id.

Definition root_after_cancel (id : Z) : M App unit := emit (AfterCancel id).

Definition status (msg : string) : M App unit :=
  emit (Status msg) ;;;
  _ <- root_after 3000 ResetStatus ;;
  ret tt.

Definition _update_title : M App unit :=
  p <- gets file_path ;;
  d <- gets dirty ;;
  emit (Title p d).

Definition _update_status_caret : M App unit :=
  idx <- on_text (Tk.index Tk.Insert) ;;
  emit (Caret idx).

Definition _schedule_highlight : M App unit :=
  id <- gets _highlight_after_id ;;
  match id with Some i => root_after_cancel i | None => ret tt end ;;;
  i <- root_after 250 HighlightNow ;;
  modify (set_highlight_after_id (Some i)).

(** The handler of the widget's <<Modified>> event.  Its first line,
    edit_modified(0), lowers the widget's modified flag, so that the next
    change of the text raises the event again; the flag is not part of
    [Tk.Text]. *)
Definition _on_text_modified : M App unit :=
  d <- gets dirty ;;
  (if negb d then modify (set_dirty true) ;;; _update_title else ret tt) ;;;
  _update_status_caret.

Definition schedule_autosave : M App unit :=
  id <- gets _autosave_after_id ;;
  match id with Some i => root_after_cancel i | None => ret tt end ;;;
  secs <- gets autosave_secs ;;
  i <- root_after (secs * 1000) AutosaveTick ;;
  modify (set_autosave_after_id (Some i)).

(** What the world outside answers: the file system, the dialogs the
    user is shown, the clock. *)
Record Env := {
  write_file : path -> str -> bool;      (* open(p, "w") and write succeed *)
  read_file : path -> option str;        (* open(p) and read; None when they raise *)
  mkdir : path -> bool;                  (* mkdir(exist_ok=True) succeeds *)
  askopenfilename : path;                (* the file dialogs: "" when dismissed *)
  asksaveasfilename : path;
  askyesnocancel : option bool;          (* None: cancel *)
  time : Z;                              (* int(time.time()) *)
  gettempdir : path
}.

Section WithWorld.

Variable env : Env.

(** Pygments, as far as the import at the top of the file got. *)
Variable Lexer : Type.
Variable lex : option (str -> Lexer -> list (toktype * str)).  (* None: no Pygments *)
Variable guess_lexer_for_filename : str -> str -> option Lexer. (* None: raises *)
Variable TextLexer : Lexer.

(** with open(p, "w") as f: f.write(self.text.get("1.0", "end-1c")) *)
Definition write_text (p : path) : M App unit :=
  data <- on_text Tk.get_all ;;
  if write_file env p data then emit (Wrote p data) else raise OSError.

(** [save_file] from its [try] on, [self.file_path] being [p]. *)
Definition save_to (p : path) : M App bool :=
  try_except
    (write_text p ;;;
     modify (set_dirty false) ;;;
     _update_title ;;;
     status "Saved" ;;;
     ret true)
    (fun e => emit (ShowError "Failed to save file") ;;; ret false).

(** [save_file_as]: its last line calls [save_file], which finds the
    path just bound. *)
Definition save_file_as : M App bool :=
  match asksaveasfilename env with
  | [] => ret false
  | (_ :: _) as p => modify (set_file_path (Some p)) ;;; save_to p
  end.

Definition save_file : M App bool :=
  fp <- gets file_path ;;
  match fp with
  | None => save_file_as
  | Some p => save_to p
  end.

Definition _maybe_save_changes : M App bool :=
  d <- gets dirty ;;
  if negb d then ret true
  else match askyesnocancel env with
       | None => ret false
       | Some true => save_file
       | Some false => ret true
       end.

Definition open_file : M App unit :=
  ok <- _maybe_save_changes ;;
  if negb ok then ret tt
  else match askopenfilename env with
       | [] => ret tt
       | (_ :: _) as p =>
           try_except
             (match read_file env p with
              | None => raise OSError
              | Some data =>
                  on_text (Tk.delete (Tk.At (Idx 1 0)) Tk.End) ;;;
                  on_text (Tk.insert (Tk.At (Idx 1 0)) data) ;;;
                  modify (set_file_path (Some p)) ;;;
                  modify (set_dirty false) ;;;
                  _update_title ;;;
                  _schedule_highlight ;;;
                  status "Opened"
              end)
             (fun e => emit (ShowError "Failed to open file"))
       end.

Definition new_file : M App unit :=
  ok <- _maybe_save_changes ;;
  if negb ok then ret tt
  else
    on_text (Tk.delete (Tk.At (Idx 1 0)) Tk.End) ;;;
    modify (set_file_path None) ;;;
    modify (set_dirty false) ;;;
    _update_title ;;;
    _schedule_highlight.

(** The decimal digits of an integer. *)
Definition digits (n : Z) : str :=
  py (NilZero.string_of_int (Z.to_int n)).

Definition autosave_dir : path := gettempdir env ++ py "/texiteditor_autosave".

Definition autosave_file : path :=
  autosave_dir ++ py "/untitled_" ++ digits (time env) ++ py ".txt".

Definition _autosave_tick : M App unit :=
  modify (set_autosave_after_id None) ;;;
  enabled <- gets autosave_enabled ;;
  if enabled then
    try_finally
      (try_except
         (fp <- gets file_path ;;
          match fp with
          | Some _ =>
              (* Save directly to file to prevent data loss *)
              d <- gets dirty ;;
              if d then _ <- save_file ;; ret tt else ret tt
          | None =>
              (* Save to temp *)
              (if mkdir env autosave_dir then emit (MadeDir autosave_dir)
               else raise OSError) ;;;
              write_text autosave_file
          end ;;;
          status "Auto-saved")
         (fun _ => ret tt))
      schedule_autosave
  else ret tt.

Definition _get_lexer : M App (option Lexer) :=
  match lex with
  | None => ret None
  | Some _ =>
      content <- on_text Tk.get_all ;;
      fp <- gets file_path ;;
      let filename := match fp with Some p => p | None => py "untitled.txt" end in
      match guess_lexer_for_filename filename content with
      | Some lexer => ret (Some lexer)
      | None => ret (Some TextLexer)
      end
  end.

Definition _clear_syntax_tags : M App unit :=
  fold_right (fun tag k => emit (TagRemove tag) ;;; k) (ret tt) syntax_tags.

(** The loop of [_highlight_now] over the lexer's tokens. *)
Fixpoint apply_tags (content : str) (tokens : list (toktype * str)) (pos : Z)
  : M App unit :=
  match tokens with
  | [] => ret tt
  | (tt_, value) :: rest =>
      let length := len value in
      if length =? 0 then apply_tags content rest pos
      else
        let start_index := _int_to_index pos content in
        let end_index := _int_to_index (pos + length) content in
        emit (TagAdd (tag_for tt_) start_index end_index) ;;;
        apply_tags content rest (pos + length)
  end.

Definition _highlight_now : M App unit :=
  modify (set_highlight_after_id None) ;;;
  match lex with
  | None => ret tt    (* Pygments not installed, skip highlighting *)
  | Some lex_ =>
      _clear_syntax_tags ;;;
      content <- on_text Tk.get_all ;;
      match strip content with
      | [] => ret tt
      | _ :: _ =>
          lexer <- _get_lexer ;;
          match lexer with
          | None => ret tt
          | Some lexer => apply_tags content (lex_ content lexer) 0
          end
      end
  end.

End WithWorld.

End EditorApp.

(** ** Settings

    The settings are a Python dict with string keys and JSON values.  The
    file is taken to hold a JSON value, the one [json.dump] wrote or any
    other: how [json] renders and parses it is the library's. *)

Module Settings.

Local Unset Elimination Schemes.

Inductive json :=
| JNull
| JBool (b : bool)
| JNum (n : Z)
| JStr (s : str)
| JArr (l : list json)
| JObj (items : list (str * json)).

Local Set Elimination Schemes.

(** A dict: its items in the order of insertion, no key twice. *)
Definition dict := list (str * json).

Definition key_eqb (a b : str) : bool :=
  if list_eq_dec Z.eq_dec a b then true else false.

(** d.get(k) *)
Fixpoint get (d : dict) (k : str) : option json :=
  match d with
  | [] => None
  | (k', v) :: rest => if key_eqb k k' then Some v else get rest k
  end.

(** d[k] = v: a key the dict holds keeps its place. *)
Fixpoint set (d : dict) (k : str) (v : json) : dict :=
  match d with
  | [] => [(k, v)]
  | (k', v') :: rest =>
      if key_eqb k k' then (k, v) :: rest else (k', v') :: set rest k v
  end.

(** {**a, **b} *)
Definition merge (a b : dict) : dict :=
  fold_left (fun acc kv => set acc (fst kv) (snd kv)) b a.

Definition DEFAULT_AUTOSAVE_SECS : Z := 10.

Definition DEFAULT_SETTINGS : dict :=
  [(py "theme", JStr (py "blue"));
   (py "font_family", JStr (py "Fira Code"));
   (py "font_size", JNum 12);
   (py "show_line_numbers", JBool true);
   (py "autosave_enabled", JBool true);
   (py "autosave_secs", JNum DEFAULT_AUTOSAVE_SECS)].

(** The part of the disk the settings live on. *)
Record Disk := MkDisk {
  mkdir_ok : bool;                    (* SETTINGS_DIR.mkdir(parents=True, exist_ok=True) succeeds *)
  settings_file : option (option json); (* None: no file; Some None: a file
                                           that cannot be read or parsed *)
  writable : bool;                    (* open(SETTINGS_FILE, "w") and json.dump succeed *)
  failed_write_leaves : option (option json) (* the file after a write that
                                           failed: as it was, or cut short *)
}.

Definition ensure_settings_dir (fs : Disk) : outcome unit :=
  if mkdir_ok fs then Returned tt else Raised OSError.

(** [load_settings()]: unpacking a JSON value that is no object raises
    TypeError, which the [except] takes like any other failure. *)
Definition load_settings (fs : Disk) : outcome dict :=
  match ensure_settings_dir fs with
  | Raised e => Raised e
  | Returned _ =>
      match settings_file fs with
      | Some loaded =>
          match loaded with
          | Some (JObj data) =>
              (* merge defaults *)
              Returned (merge DEFAULT_SETTINGS data)
          | _ => Returned DEFAULT_SETTINGS
          end
      | None => Returned DEFAULT_SETTINGS
      end
  end.

(** [save_settings(settings)], and the disk it leaves. *)
Definition save_settings (fs : Disk) (settings : dict) : outcome unit * Disk :=
  match ensure_settings_dir fs with
  | Raised e => (Raised e, fs)
  | Returned _ =>
      if writable fs
      then (Returned tt,
            MkDisk (mkdir_ok fs) (Some (Some (JObj settings))) (writable fs)
              (failed_write_leaves fs))
      else (Returned tt,
            MkDisk (mkdir_ok fs) (failed_write_leaves fs) (writable fs)
              (failed_write_leaves fs))
  end.

End Settings.

(** * The vocabulary of the statements, and the inputs of the examples *)

Import FindReplaceDialog.
Import EditorApp.

(** Texts whose only line boundary is "\n". *)
Definition lf_only (text : str) : Prop :=
  forall c, In c text -> is_linebreak c = true -> c = LF.

(** "ab\n" *)
Definition ab_newline : str := py "ab" ++ [LF].

(** "a\fb\nc": a form feed, which [splitlines] takes for a line boundary
    and the widget does not. *)
Definition a_formfeed_b_newline_c : str := py "a" ++ [12] ++ py "b" ++ [LF] ++ py "c".

(** The needle occurs in the text at offset [k]. *)
Definition occurs_at (E : ReEngine) (ic : bool) (needle text : str) (k : nat) : Prop :=
  (k <= List.length text)%nat /\ match_here E ic needle (skipn k text) = true.

Definition abcXabc : str := py "abcXabc".

(** The literal, case-sensitive search for "abc". *)
Definition find_abc : Dialog := MkDialog (py "abc") [] false true.

(** The indices [_search] returns for a match. *)
Definition span_of (text : str) (m : Z * Z) : tkindex * tkindex :=
  (int_to_index text (fst m), int_to_index text (snd m)).


Definition hello_world : str := py "hello world".

(** Find "world", replace by "X"; literal, case-sensitive. *)
Definition world_to_X : Dialog := MkDialog (py "world") (py "X") false true.

Definition foo_foo_foo : str := py "foo foo foo".

(** Find "foo", replace by "bar", with the dialog's boxes as they start:
    no regex, no match case. *)
Definition foo_to_bar : Dialog := MkDialog (py "foo") (py "bar") false false.

(** A disk that takes no write. *)
Definition full_disk : Env := {|
  write_file := fun _ _ => false;
  read_file := fun _ => None;
  mkdir := fun _ => true;
  askopenfilename := [];
  asksaveasfilename := [];
  askyesnocancel := None;
  time := 1700000000;
  gettempdir := py "/tmp"
|}.

(** A disk that takes every write and holds "hello" in every file; the
    file dialogs answer with notes.txt. *)
Definition good_disk : Env := {|
  write_file := fun _ _ => true;
  read_file := fun _ => Some (py "hello");
  mkdir := fun _ => true;
  askopenfilename := py "/home/u/notes.txt";
  asksaveasfilename := py "/home/u/notes.txt";
  askyesnocancel := None;
  time := 1700000000;
  gettempdir := py "/tmp"
|}.

(** "draft", not saved yet, bound to notes.txt; an autosave timer pending. *)
Definition dirty_notes : App :=
  MkApp (Tk.MkText (py "draft") 5 None) (Some (py "/home/u/notes.txt")) true
    true 10 None (Some 0) 1 [].

(** A window just opened: no text, no path, nothing to save. *)
Definition clean_untitled : App :=
  MkApp (Tk.MkText [] 0 None) None false true 10 None (Some 0) 1 [].

(** The path [save_file] writes to: the bound one, else the one the
    save-as dialog answers; None when that dialog is dismissed. *)
Definition save_target (env : Env) (a : App) : option path :=
  match file_path a with
  | Some p => Some p
  | None => match asksaveasfilename env with [] => None | p => Some p end
  end.

(** A highlight span in offsets: a tag over [start .. stop). *)
Record span := Span { tag : string; start : Z; stop : Z }.

(** The spans the loop of [_highlight_now] walks through: one per token
    that is not empty, each starting where the one before stops. *)
Fixpoint token_spans (tokens : list (toktype * str)) (pos : Z) : list span :=
  match tokens with
  | [] => []
  | (t, value) :: rest =>
      if len value =? 0 then token_spans rest pos
      else Span (tag_for t) pos (pos + len value)
             :: token_spans rest (pos + len value)
  end.

(** The [tag_add] call made for a span. *)
Definition tag_add_of (content : str) (s : span) : event :=
  TagAdd (tag s) (EditorApp._int_to_index (start s) content)
    (EditorApp._int_to_index (stop s) content).


(** The spans of a highlight pass, in offsets. *)
Definition highlight (Lexer : Type)
    (lex : option (str -> Lexer -> list (toktype * str)))
    (guess_lexer_for_filename : str -> str -> option Lexer) (TextLexer : Lexer)
    (a : App) : list span :=
  match lex with
  | None => []
  | Some lex_ =>
      let content := Tk.content (text a) in
      match strip content with
      | [] => []
      | _ :: _ =>
          let filename :=
            match file_path a with Some p => p | None => py "untitled.txt" end in
          let lexer :=
            match guess_lexer_for_filename filename content with
            | Some l => l
            | None => TextLexer
            end in
          token_spans (lex_ content lexer) 0
      end
  end.

(** The [tag_remove] calls of a pass. *)
Definition cleared (Lexer : Type)
    (lex : option (str -> Lexer -> list (toktype * str))) : list event :=
  match lex with
  | None => []
  | Some _ => map TagRemove syntax_tags
  end.

(** A lexer for the examples: a keyword, an empty token, a name. *)
Definition def_f_tokens : list (toktype * str) :=
  [(["Keyword"], py "def"); (["Text"], []); (["Text"; "Whitespace"], py " ");
   (["Name"; "Function"], py "f")].

Definition def_f : App :=
  MkApp (Tk.MkText (py "def f") 5 None) (Some (py "/home/u/f.py")) false
    true 10 (Some 0) None 1 [].

(** An offset whose index [_int_to_index] gets right: any offset before the
    end, and the end of a text that breaks its lines at "\n" only and does
    not end in one. *)
Definition exact_at (text : str) (pos : Z) : Prop :=
  0 <= pos < len text
  \/ (pos = len text /\ lf_only text /\ last text 0 <> LF).

(** "ab\ncd", not ending in a newline. *)
Definition ab_newline_cd : str := py "ab" ++ [LF] ++ py "cd".

(** The match [_search] settles on: the first one from [fromOffset + 1]
    on, else the first one of the text. *)
Definition found_match (E : ReEngine) (p : pattern E) (w : Tk.Text) : option (Z * Z) :=
  let text := Tk.content w in
  let fromOffset := _index_to_int (Tk.index_of text (Tk.insert_mark w)) text in
  match pattern_search E p text (fromOffset + 1) with
  | Some m => Some m
  | None => pattern_search E p text 0
  end.

(** Find "abd", which "abcXabc" does not hold. *)
Definition find_abd : Dialog := MkDialog (py "abd") (py "x") false true.

(** Replace "abc" by "abc". *)
Definition abc_to_abc : Dialog := MkDialog (py "abc") (py "abc") false true.

(** A disk that takes no write, before a user who answers the
    unsaved-changes question with Yes. *)
Definition full_disk_yes : Env := {|
  write_file := fun _ _ => false;
  read_file := fun _ => None;
  mkdir := fun _ => true;
  askopenfilename := py "/home/u/other.txt";
  asksaveasfilename := py "/home/u/notes.txt";
  askyesnocancel := Some true;
  time := 1700000000;
  gettempdir := py "/tmp"
|}.

(** "draft", never saved: no path bound. *)
Definition dirty_untitled : App :=
  MkApp (Tk.MkText (py "draft") 5 None) None true true 10 None (Some 0) 1 [].

(** What an autosave tick writes to: the bound path, else the snapshot
    file. *)
Definition autosave_target (env : Env) (a : App) : path :=
  match file_path a with
  | Some p => p
  | None => autosave_file env
  end.

(** "draft", saved in other.txt. *)
Definition saved_notes : App :=
  MkApp (Tk.MkText (py "draft") 5 None) (Some (py "/home/u/other.txt")) false
    true 10 None (Some 0) 1 [].

Definition callback_eqb (a b : callback) : bool :=
  match a, b with
  | HighlightNow, HighlightNow | AutosaveTick, AutosaveTick
  | ResetStatus, ResetStatus => true
  | _, _ => false
  end.

(** The event cancels the timer [id]. *)
Definition cancels (id : Z) (e : event) : bool :=
  match e with
  | AfterCancel j => j =? id
  | _ => false
  end.

(** The timers for the callback [cb] that the events of [part] set and no
    event of [whole] cancels. *)
Definition live_in (cb : callback) (whole part : list event) : list Z :=
  flat_map (fun e =>
              match e with
              | After id _ cb' =>
                  if callback_eqb cb cb' && negb (existsb (cancels id) whole)
                  then [id] else []
              | _ => []
              end) part.

(** The timers for [cb] that a log has set and not cancelled. *)
Definition live (cb : callback) (l : list event) : list Z := live_in cb l l.

(** Every timer id of the log has been handed out by [root.after]. *)
Definition ids_handed_out (a : App) : Prop :=
  Forall (fun e =>
            match e with
            | After id _ _ | AfterCancel id => id < after_ids a
            | _ => True
            end) (log a).

(** The window's record of its highlight timer is right: the timer it
    holds the id of, if any, is the only one set and not cancelled. *)
Definition highlight_timer_ok (a : App) : Prop :=
  ids_handed_out a
  /\ live HighlightNow (log a)
     = match _highlight_after_id a with Some i => [i] | None => [] end.

(** The same for the autosave timer. *)
Definition autosave_timer_ok (a : App) : Prop :=
  ids_handed_out a
  /\ live AutosaveTick (log a)
     = match _autosave_after_id a with Some i => [i] | None => [] end.

(** [n] key releases in a row: [_schedule_highlight] called [n] times. *)
Fixpoint key_releases (n : nat) (a : App) : App :=
  match n with
  | O => a
  | S k => snd (_schedule_highlight (key_releases k a))
  end.

(** A window at its start: nothing logged, no timer set. *)
Definition fresh_window : App :=
  MkApp (Tk.MkText [] 0 None) None false true 10 None None 0 [].

(** A settings file written by hand: a theme, and a key the editor does
    not know. *)
Definition green_settings : Settings.dict :=
  [(py "theme", Settings.JStr (py "green")); (py "tab_width", Settings.JNum 4)].

(** A disk with that settings file. *)
Definition disk_green : Settings.Disk :=
  Settings.MkDisk true (Some (Some (Settings.JObj green_settings))) true (Some None).

(** A disk whose settings file holds a JSON list. *)
Definition disk_list : Settings.Disk :=
  Settings.MkDisk true (Some (Some (Settings.JArr []))) true (Some None).

(** A home directory in which the settings directory cannot be made. *)
Definition disk_no_dir : Settings.Disk := Settings.MkDisk false None true None.

(** The spans lie end to end from [from] to [to]. *)
Fixpoint tiles (from : Z) (l : list span) (to : Z) : Prop :=
  match l with
  | [] => from = to
  | s :: rest => start s = from /\ tiles (stop s) rest to
  end.

(** The tags of the [tag_add] calls of a log, in their order. *)
Definition added_tags (l : list event) : list string :=
  flat_map (fun e => match e with TagAdd t _ _ => [t] | _ => [] end) l.

(** A token whose text is not empty. *)
Definition nonempty_token (tv : toktype * str) : bool := negb (len (snd tv) =? 0).

(** The name [_get_lexer] passes to Pygments. *)
Definition lexer_filename (a : App) : str :=
  match file_path a with Some p => p | None => py "untitled.txt" end.

(** A lexer that gives "def f" back in three tokens and an empty one. *)
Definition lex_def_f (content : str) (lexer : unit) : list (toktype * str) :=
  def_f_tokens.

(** * Properties *)

(** ** Offsets and indices *)

Lemma len_nonneg {A} (l : list A) : 0 <= len l.
Proof. unfold len. lia. Qed.

Lemma lf_only_cons c text : lf_only (c :: text) -> lf_only text.
Proof. intros H x Hx. apply H. right. exact Hx. Qed.

Lemma splitlines_lf keep rest :
  splitlines keep (LF :: rest) = (if keep then [LF] else []) :: splitlines keep rest.
Proof. destruct rest; reflexivity. Qed.

Lemma splitlines_plain keep c rest :
  is_linebreak c = false ->
  splitlines keep (c :: rest) =
  match splitlines keep rest with
  | [] => [[c]]
  | l :: ls => (c :: l) :: ls
  end.
Proof. intros H. simpl. rewrite H. reflexivity. Qed.

Lemma lf_only_head c text :
  lf_only (c :: text) -> (c =? LF) = false -> is_linebreak c = false.
Proof.
  intros H Hc. destruct (is_linebreak c) eqn:Hb; [|reflexivity].
  rewrite (H c (or_introl eq_refl) Hb) in Hc. discriminate.
Qed.

Lemma len_cons {A} (x : A) l : len (x :: l) = len l + 1.
Proof. unfold len. change (List.length (x :: l)) with (S (List.length l)). lia. Qed.

Lemma scan_index text : lf_only text -> forall pos l c,
  0 <= pos <= len text ->
  let i := scan text pos l c in
  l <= line i
  /\ sum_len (firstn (Z.to_nat (line i - l)) (splitlines true text)) + col i
     = pos + (if line i =? l then c else 0).
Proof.
  induction text as [|ch rest IH]; intros Hlf pos l c Hpos; cbn [scan].
  - simpl. rewrite Z.eqb_refl, Z.sub_diag. unfold len in Hpos. simpl in *. lia.
  - destruct (Z.eqb_spec pos 0) as [->|Hnz].
    + cbn [line col]. rewrite Z.eqb_refl, Z.sub_diag. simpl. lia.
    + rewrite len_cons in Hpos.
      assert (Hrest : 0 <= pos - 1 <= len rest) by lia.
      pose proof (lf_only_cons _ _ Hlf) as Hlf'.
      destruct (Z.eqb_spec ch LF) as [->|Hch].
      * destruct (IH Hlf' (pos - 1) (l + 1) 0 Hrest) as [Hle Hsum].
        rewrite splitlines_lf.
        set (i := scan rest (pos - 1) (l + 1) 0) in *.
        split; [lia|].
        replace (Z.to_nat (line i - l)) with (S (Z.to_nat (line i - (l + 1)))) by lia.
        replace (line i =? l) with false by (symmetry; apply Z.eqb_neq; lia).
        cbn [firstn sum_len fold_right]. change (len [LF]) with 1.
        fold (sum_len (firstn (Z.to_nat (line i - (l + 1))) (splitlines true rest))).
        destruct (line i =? l + 1); lia.
      * destruct (IH Hlf' (pos - 1) l (c + 1) Hrest) as [Hle Hsum].
        assert (Hb : is_linebreak ch = false).
        { apply (lf_only_head _ _ Hlf). apply Z.eqb_neq. exact Hch. }
        rewrite (splitlines_plain _ _ _ Hb).
        set (i := scan rest (pos - 1) l (c + 1)) in *.
        split; [lia|].
        destruct (Z.eqb_spec (line i) l) as [Heq|Hneq].
        -- rewrite Heq, Z.sub_diag in *. simpl in *.
           destruct (splitlines true rest); simpl; lia.
        -- destruct (Z.to_nat (line i - l)) as [|k] eqn:Hk; [lia|].
           destruct (splitlines true rest) as [|l0 ls].
           ++ rewrite firstn_nil in Hsum. cbn [firstn sum_len fold_right] in *.
              rewrite firstn_nil. cbn [fold_right]. change (len [ch]) with 1. lia.
           ++ cbn [firstn sum_len fold_right] in *. rewrite len_cons. lia.
Qed.

Lemma firstn_past {A} (l : list A) k :
  firstn (Z.to_nat (Z.min k (len l))) l = firstn (Z.to_nat k) l.
Proof.
  destruct (Z.le_ge_cases k (len l)) as [H|H].
  - rewrite Z.min_l by exact H. reflexivity.
  - rewrite Z.min_r by exact H. unfold len in *.
    rewrite Nat2Z.id, firstn_all. symmetry. apply firstn_all2. lia.
Qed.

Lemma _index_to_int_scan text pos :
  lf_only text -> 0 <= pos <= len text ->
  _index_to_int (scan text pos 1 0) text = pos.
Proof.
  intros Hlf Hpos. unfold _index_to_int. rewrite firstn_past.
  destruct (scan_index text Hlf pos 1 0 Hpos) as [_ Hsum].
  cbv zeta in Hsum. rewrite Hsum. destruct (_ =? 1); lia.
Qed.

(** X1: Before the end of a text that breaks its lines at "\n" only, the round
    trip of an offset gives the offset back. *)
Lemma roundtrip_inside text o :
  lf_only text -> 0 <= o < len text ->
  _index_to_int (int_to_index text o) text = o.
Proof.
  intros Hlf Ho. unfold int_to_index.
  destruct (Z.leb_spec o 0) as [Hz|Hpos].
  - assert (o = 0) as -> by lia. unfold _index_to_int. rewrite firstn_past. reflexivity.
  - destruct (Z.geb_spec o (len text)) as [Hge|_]; [lia|].
    apply _index_to_int_scan; [exact Hlf | lia].
Qed.

Lemma splitlines_nonempty keep c text : splitlines keep (c :: text) <> [].
Proof.
  simpl. destruct (is_linebreak c).
  - destruct text as [|d rest]; [discriminate|].
    destruct ((c =? CR) && (d =? LF)); discriminate.
  - destruct (splitlines keep text); discriminate.
Qed.

(** At the end of a text that does not end in a newline, the walk of
    [scan] arrives at the last line [splitlines] gives. *)
Lemma scan_end text : lf_only text -> text <> [] -> last text 0 <> LF ->
  forall l c,
  let ls := splitlines false text in
  scan text (len text) l c =
  Idx (l + len ls - 1) (len (last ls []) + (if len ls =? 1 then c else 0)).
Proof.
  induction text as [|ch rest IH]; intros Hlf Hne Hlast l c; [congruence|].
  cbv zeta. cbn [scan]. rewrite len_cons.
  pose proof (len_nonneg rest) as Hlen.
  replace (len rest + 1 =? 0) with false by (symmetry; apply Z.eqb_neq; lia).
  replace (len rest + 1 - 1) with (len rest) by lia.
  pose proof (lf_only_cons _ _ Hlf) as Hlf'.
  destruct rest as [|d rest'].
  - (* the last character *)
    simpl in Hlast. replace (ch =? LF) with false by (symmetry; apply Z.eqb_neq; exact Hlast).
    assert (Hb : is_linebreak ch = false).
    { apply (lf_only_head _ _ Hlf). apply Z.eqb_neq. exact Hlast. }
    rewrite (splitlines_plain _ _ _ Hb). cbn [scan splitlines last].
    change (len [[ch]]) with 1. change (len [ch]) with 1.
    change (1 =? 1) with true. cbv iota. f_equal; lia.
  - assert (Hlast' : last (d :: rest') 0 <> LF) by exact Hlast.
    specialize (IH Hlf' ltac:(discriminate) Hlast'). cbv zeta in IH.
    pose proof (splitlines_nonempty false d rest') as Hls.
    destruct (Z.eqb_spec ch LF) as [->|Hch].
    + rewrite IH, splitlines_lf.
      destruct (splitlines false (d :: rest')) as [|l0 ls0] eqn:Hs; [congruence|].
      rewrite !len_cons. pose proof (len_nonneg ls0).
      replace (len ls0 + 1 + 1 =? 1) with false by (symmetry; apply Z.eqb_neq; lia).
      change (last ([] :: l0 :: ls0) []) with (last (l0 :: ls0) (@nil char)).
      f_equal; [lia|]. destruct (len ls0 + 1 =? 1); lia.
    + assert (Hb : is_linebreak ch = false).
      { apply (lf_only_head _ _ Hlf). apply Z.eqb_neq. exact Hch. }
      rewrite IH, (splitlines_plain _ _ _ Hb).
      destruct (splitlines false (d :: rest')) as [|l0 ls0] eqn:Hs; [congruence|].
      rewrite !len_cons. f_equal.
      destruct ls0 as [|l1 ls1].
      * cbn [last]. rewrite len_cons. change (len (@nil str)) with 0.
        change (0 + 1 =? 1) with true. cbv iota. lia.
      * change (last ((ch :: l0) :: l1 :: ls1) []) with (last (l1 :: ls1) (@nil char)).
        change (last (l0 :: l1 :: ls1) []) with (last (l1 :: ls1) (@nil char)).
        rewrite !len_cons. pose proof (len_nonneg ls1).
        replace (len ls1 + 1 + 1 =? 1) with false by (symmetry; apply Z.eqb_neq; lia).
        reflexivity.
Qed.

(** X2: At the end of such a text the round trip holds as well. *)
Lemma roundtrip_at_end text :
  lf_only text -> last text 0 <> LF ->
  _index_to_int (int_to_index text (len text)) text = len text.
Proof.
  intros Hlf Hlast. destruct text as [|ch rest] eqn:Ht.
  - reflexivity.
  - rewrite <- Ht in *. assert (Hne : text <> []) by (rewrite Ht; discriminate).
    pose proof (len_nonneg text) as Hlen.
    assert (Hpos : 0 < len text) by (rewrite Ht, len_cons; pose proof (len_nonneg rest); lia).
    assert (Hidx : int_to_index text (len text) = scan text (len text) 1 0).
    { unfold int_to_index.
      replace (len text <=? 0) with false by (symmetry; apply Z.leb_gt; lia).
      replace (len text >=? len text) with true by (symmetry; apply Z.geb_le; lia).
      rewrite (scan_end text Hlf Hne Hlast 1 0). cbv zeta.
      assert (Hls : 0 < len (splitlines false text)).
      { rewrite Ht. pose proof (splitlines_nonempty false ch rest).
        destruct (splitlines false (ch :: rest)) as [|x xs]; [congruence|].
        rewrite len_cons. pose proof (len_nonneg xs). lia. }
      replace (len (splitlines false text) =? 0) with false
        by (symmetry; apply Z.eqb_neq; lia).
      f_equal; [lia|]. destruct (_ =? 1); lia. }
    rewrite Hidx. apply _index_to_int_scan; [exact Hlf | lia].
Qed.

(** The same happens inside a text with a line boundary of [splitlines]
    other than "\n": in "a\fb\nc" the offset 4, of "c", is the index 2.0
    and comes back as 2. *)
Example roundtrip_lost_after_form_feed :
  int_to_index a_formfeed_b_newline_c 4 = Idx 2 0
  /\ _index_to_int (Idx 2 0) a_formfeed_b_newline_c = 2.
Proof. split; reflexivity. Qed.

(** The two [_int_to_index] methods, of the dialog and of the window,
    compute the same index. *)
Lemma int_to_index_same text pos :
  int_to_index text pos = EditorApp._int_to_index pos text.
Proof.
  unfold int_to_index, EditorApp._int_to_index.
  destruct (pos <=? 0); [reflexivity|]. destruct (pos >=? len text); [|reflexivity].
  destruct (splitlines false text) as [|l ls]; [reflexivity|].
  rewrite len_cons. pose proof (len_nonneg ls).
  replace (len ls + 1 =? 0) with false by (symmetry; apply Z.eqb_neq; lia).
  rewrite Z.max_r by lia. reflexivity.
Qed.

(** C1: the round trip of an offset through [_int_to_index] and
    [_index_to_int] is lost at the end of a text that ends with a newline:
    for "ab\n" the offset 3 becomes the index 1.2, the one of offset 2, and
    comes back as 2. *)
Theorem roundtrip_lost_after_final_newline :
  len ab_newline = 3
  /\ int_to_index ab_newline 3 = Idx 1 2
  /\ int_to_index ab_newline 2 = Idx 1 2
  /\ _index_to_int (int_to_index ab_newline 3) ab_newline = 2.
Proof. repeat split. Qed.

(** ** Literal search *)

Section Literal.

Variable E : ReEngine.

Lemma find_from_none ic needle text : forall pos off,
  find_from E ic needle text pos off = None ->
  forall k, pos <= off + Z.of_nat k -> ~ occurs_at E ic needle text k.
Proof.
  induction text as [|c rest IH]; intros pos off Hnone k Hk [Hlen Hm]; simpl in Hnone.
  - assert (k = 0)%nat by (simpl in Hlen; lia). subst k. simpl in Hm.
    replace (pos <=? off) with true in Hnone by (symmetry; apply Z.leb_le; lia).
    rewrite Hm in Hnone. discriminate.
  - destruct ((pos <=? off) && match_here E ic needle (c :: rest)) eqn:Hhere;
      [discriminate|].
    destruct k as [|k].
    + simpl in Hm. rewrite Hm, andb_true_r in Hhere.
      apply Z.leb_gt in Hhere. lia.
    + apply (IH pos (off + 1) Hnone k); [lia|].
      split; [simpl in Hlen; lia | exact Hm].
Qed.

Lemma find_from_some ic needle text : forall pos off i,
  find_from E ic needle text pos off = Some i ->
  exists k, i = off + Z.of_nat k /\ pos <= i /\ occurs_at E ic needle text k
            /\ forall j, (j < k)%nat -> pos <= off + Z.of_nat j ->
                         ~ occurs_at E ic needle text j.
Proof.
  induction text as [|c rest IH]; intros pos off i Hsome; simpl in Hsome.
  - destruct ((pos <=? off) && match_here E ic needle []) eqn:Hhere; [|discriminate].
    apply andb_prop in Hhere as [Hp Hm]. apply Z.leb_le in Hp.
    injection Hsome as <-. exists 0%nat.
    repeat split; simpl; try lia; try assumption.
  - destruct ((pos <=? off) && match_here E ic needle (c :: rest)) eqn:Hhere.
    + apply andb_prop in Hhere as [Hp Hm]. apply Z.leb_le in Hp.
      injection Hsome as <-. exists 0%nat.
      repeat split; simpl; try lia; try assumption.
    + destruct (IH _ _ _ Hsome) as (k & Hi & Hpos & [Hlen Hm] & Hleast).
      exists (S k). repeat split; simpl; try lia; try assumption.
      intros j Hj Hpj [Hjl Hjm]. destruct j as [|j].
      * simpl in Hjm. rewrite Hjm, andb_true_r in Hhere.
        apply Z.leb_gt in Hhere. lia.
      * apply (Hleast j); [lia | lia |]. split; [simpl in Hjl; lia | exact Hjm].
Qed.

(** A literal search finds nothing from the start exactly when the needle
    occurs nowhere. *)
Lemma find_from_start_none ic needle text :
  find_from E ic needle text 0 0 = None <->
  (forall k, ~ occurs_at E ic needle text k).
Proof.
  split.
  - intros H k. apply (find_from_none _ _ _ _ _ H). lia.
  - intros H. destruct (find_from E ic needle text 0 0) as [i|] eqn:Hf; [|reflexivity].
    destruct (find_from_some _ _ _ _ _ _ Hf) as (k & _ & _ & Hocc & _).
    destruct (H k Hocc).
Qed.

Lemma find_from_absent ic needle text pos off :
  (forall k, ~ occurs_at E ic needle text k) ->
  find_from E ic needle text pos off = None.
Proof.
  intros H. destruct (find_from E ic needle text pos off) as [i|] eqn:Hf; [|reflexivity].
  destruct (find_from_some _ _ _ _ _ _ Hf) as (k & _ & _ & Hocc & _).
  destruct (H k Hocc).
Qed.

Lemma compile_needle_state d w : snd (compile_needle E d w) = w.
Proof.
  unfold compile_needle. destruct (regex_var d); [|reflexivity].
  destruct (re_compile E (find_var d) (negb (case_var d))); reflexivity.
Qed.

Lemma compile_needle_literal d w :
  regex_var d = false ->
  compile_needle E d w = (Returned (Escaped (find_var d) (negb (case_var d))), w).
Proof. intros H. unfold compile_needle. rewrite H. reflexivity. Qed.


End Literal.

(** ** Find next *)

Lemma index_run w p off :
  Tk.resolve w p = Returned off ->
  Tk.index p w = (Returned (Tk.index_of (Tk.content w) off), w).
Proof. intros H. unfold Tk.index, Tk.resolved, bind, gets, ret. rewrite H. reflexivity. Qed.

Lemma span_indices_run m w :
  span_indices m w = (Returned (Some (span_of (Tk.content w) m)), w).
Proof. reflexivity. Qed.




(** ** What the dialog's methods leave of the widget *)

Section DialogState.

Variable E : ReEngine.

Lemma _search_state d start w : snd (_search E d start w) = w.
Proof.
  unfold _search. destruct (find_var d); [reflexivity|].
  unfold bind at 1. pose proof (compile_needle_state E d w) as Hst.
  destruct (compile_needle E d w) as [[p|e] w']; simpl in Hst; subst w'; [|reflexivity].
  unfold bind at 1. unfold Tk.get_all, gets. unfold bind at 1.
  unfold Tk.index, Tk.resolved, bind, gets, ret.
  destruct (Tk.resolve w start); [|reflexivity].
  destruct (pattern_search E p (Tk.content w) _); [reflexivity|].
  destruct (pattern_search E p (Tk.content w) 0); reflexivity.
Qed.


Lemma tag_add_sel_content p1 p2 w :
  Tk.content (snd (Tk.tag_add_sel p1 p2 w)) = Tk.content w.
Proof.
  unfold Tk.tag_add_sel, Tk.resolved, bind, modify.
  destruct (Tk.resolve w p1); [|reflexivity].
  destruct (Tk.resolve w p2) as [b|]; [|reflexivity].
  simpl. destruct (_ <? b); reflexivity.
Qed.

Lemma mark_set_insert_content p w :
  Tk.content (snd (Tk.mark_set_insert p w)) = Tk.content w.
Proof.
  unfold Tk.mark_set_insert, Tk.resolved, bind, modify.
  destruct (Tk.resolve w p); reflexivity.
Qed.

(** [find_next] selects and moves the insert mark; the text stays. *)
Lemma find_next_content d w :
  Tk.content (snd (find_next E d w)) = Tk.content w.
Proof.
  unfold find_next. unfold bind at 1.
  pose proof (_search_state d Tk.Insert w) as Hst.
  destruct (_search E d Tk.Insert w) as [[[[s e]|]|x] w']; simpl in Hst; subst w';
    try reflexivity.
  unfold bind at 1. unfold Tk.tag_remove_sel_all, modify at 1.
  set (w1 := Tk.MkText (Tk.content w) (Tk.insert_mark w) None).
  unfold bind at 1.
  pose proof (tag_add_sel_content (Tk.At s) (Tk.At e) w1) as H1.
  destruct (Tk.tag_add_sel (Tk.At s) (Tk.At e) w1) as [[[]|x] w2]; simpl in H1;
    [|exact H1].
  unfold bind at 1.
  pose proof (mark_set_insert_content (Tk.At e) w2) as H2.
  destruct (Tk.mark_set_insert (Tk.At e) w2) as [[[]|x] w3]; simpl in H2;
    simpl; congruence.
Qed.

Lemma firstn_app_exact {A} (l1 l2 : list A) n :
  n = List.length l1 -> firstn n (l1 ++ l2) = l1.
Proof.
  intros ->. rewrite firstn_app, Nat.sub_diag, firstn_all. simpl. apply app_nil_r.
Qed.

Lemma skipn_app_exact {A} (l1 l2 : list A) n :
  n = List.length l1 -> skipn n (l1 ++ l2) = l2.
Proof.
  intros ->. rewrite skipn_app, Nat.sub_diag, skipn_all. reflexivity.
Qed.

Lemma delete_run w p1 p2 a b :
  Tk.resolve w p1 = Returned a -> Tk.resolve w p2 = Returned b ->
  Tk.delete p1 p2 w =
  (Returned tt,
   if a <? b then
     Tk.MkText (firstn (Z.to_nat a) (Tk.content w) ++ skipn (Z.to_nat b) (Tk.content w))
       (Tk.after_delete a b (Tk.insert_mark w))
       (match Tk.sel w with
        | Some (s, e) =>
            if Tk.after_delete a b s <? Tk.after_delete a b e
            then Some (Tk.after_delete a b s, Tk.after_delete a b e) else None
        | None => None
        end)
   else w).
Proof.
  intros H1 H2. unfold Tk.delete, Tk.resolved, bind, modify. rewrite H1, H2. reflexivity.
Qed.

Lemma insert_run w p s a :
  Tk.resolve w p = Returned a ->
  Tk.insert p s w =
  (Returned tt,
   Tk.MkText (firstn (Z.to_nat a) (Tk.content w) ++ s ++ skipn (Z.to_nat a) (Tk.content w))
     (if a <=? Tk.insert_mark w then Tk.insert_mark w + len s else Tk.insert_mark w)
     (match Tk.sel w with
      | Some (x, y) =>
          Some (if a <=? x then x + len s else x, if a <? y then y + len s else y)
      | None => None
      end)).
Proof.
  intros H. unfold Tk.insert, Tk.resolved, bind, modify. rewrite H. reflexivity.
Qed.

(** delete("sel.first", "sel.last") then insert("insert", repl), the
    insert mark being inside the selection or at one of its ends. *)
Lemma replace_selection_run repl w a b :
  Tk.sel w = Some (a, b) ->
  0 <= a < b -> b <= len (Tk.content w) -> a <= Tk.insert_mark w <= b ->
  (Tk.delete Tk.SelFirst Tk.SelLast ;;; Tk.insert Tk.Insert repl) w =
  (Returned tt,
   Tk.MkText (firstn (Z.to_nat a) (Tk.content w) ++ repl ++ skipn (Z.to_nat b) (Tk.content w))
     (a + len repl) None).
Proof.
  intros Hsel Hab Hb Hm. unfold bind.
  rewrite (delete_run w Tk.SelFirst Tk.SelLast a b) by (simpl; rewrite Hsel; reflexivity).
  replace (a <? b) with true by (symmetry; apply Z.ltb_lt; lia).
  rewrite Hsel.
  assert (Hmark : Tk.after_delete a b (Tk.insert_mark w) = a).
  { unfold Tk.after_delete.
    destruct (Z.leb_spec (Tk.insert_mark w) a); [lia|].
    destruct (Z.leb_spec (Tk.insert_mark w) b); lia. }
  assert (Ha : Tk.after_delete a b a = a).
  { unfold Tk.after_delete. rewrite Z.leb_refl. reflexivity. }
  assert (Hb' : Tk.after_delete a b b = a).
  { unfold Tk.after_delete. destruct (Z.leb_spec b a); [lia|].
    rewrite Z.leb_refl. reflexivity. }
  rewrite Hmark, Ha, Hb', Z.ltb_irrefl.
  erewrite insert_run by reflexivity.
  cbn [Tk.content Tk.insert_mark Tk.sel]. rewrite Z.leb_refl.
  assert (Hlen : Z.to_nat a = List.length (firstn (Z.to_nat a) (Tk.content w))).
  { rewrite length_firstn. unfold len in Hb. lia. }
  rewrite (firstn_app_exact _ _ _ Hlen), (skipn_app_exact _ _ _ Hlen).
  reflexivity.
Qed.

Lemma offset_of_start text : Tk.offset_of text (Idx 1 0) = 0.
Proof. destruct text; reflexivity. Qed.

(** delete("1.0", "end") then insert("1.0", new_text) *)
Lemma replace_buffer_run new_text w :
  let r := (Tk.delete (Tk.At (Idx 1 0)) Tk.End ;;;
            Tk.insert (Tk.At (Idx 1 0)) new_text) w in
  fst r = Returned tt /\ Tk.content (snd r) = new_text.
Proof.
  unfold bind.
  rewrite (delete_run w (Tk.At (Idx 1 0)) Tk.End 0 (len (Tk.content w)))
    by (simpl; rewrite ?offset_of_start; reflexivity).
  destruct (0 <? len (Tk.content w)) eqn:Hlen.
  - apply Z.ltb_lt in Hlen.
    erewrite insert_run by (simpl; rewrite offset_of_start; reflexivity).
    cbn [fst snd Tk.content Z.to_nat firstn skipn app].
    rewrite skipn_all2 by (unfold len; lia).
    split; [reflexivity | apply app_nil_r].
  - apply Z.ltb_ge in Hlen.
    erewrite insert_run by (simpl; rewrite offset_of_start; reflexivity).
    cbn [fst snd Tk.content Z.to_nat firstn skipn app].
    assert (Tk.content w = []) as ->.
    { destruct (Tk.content w); [reflexivity | unfold len in Hlen; simpl in Hlen; lia]. }
    split; [reflexivity | apply app_nil_r].
Qed.

End DialogState.

(** ** An invalid pattern *)




(** ** Replace *)

(** C4, as the code has it: [replace_one] replaces whatever is selected,
    be it the span of a find match or not, and leaves the insert mark
    behind the replacement (the mark being within the selection, where the
    widget's bindings and [find_next] put it); only when nothing is
    selected it does what [find_next] does, which leaves the text as it
    is. *)
Theorem replace_one_replaces_selection (E : ReEngine) (d : Dialog) (w : Tk.Text) :
  (forall a b,
      Tk.sel w = Some (a, b) ->
      0 <= a < b -> b <= len (Tk.content w) -> a <= Tk.insert_mark w <= b ->
      replace_one E d w =
      (Returned tt,
       Tk.MkText
         (firstn (Z.to_nat a) (Tk.content w) ++ replace_var d
            ++ skipn (Z.to_nat b) (Tk.content w))
         (a + len (replace_var d)) None))
  /\ (Tk.sel w = None ->
      replace_one E d w = find_next E d w
      /\ Tk.content (snd (replace_one E d w)) = Tk.content w).
Proof.
  split.
  - intros a b Hsel Hab Hb Hm.
    unfold replace_one, Tk.tag_ranges_sel, gets. unfold bind at 1. rewrite Hsel.
    apply replace_selection_run; assumption.
  - intros Hsel.
    assert (Hfind : replace_one E d w = find_next E d w).
    { unfold replace_one, Tk.tag_ranges_sel, gets. unfold bind at 1.
      rewrite Hsel. reflexivity. }
    split; [exact Hfind|]. rewrite Hfind. apply find_next_content.
Qed.

Lemma replace_one_replaces_selection_witness :
  replace_one DotEngine.engine world_to_X (Tk.MkText hello_world 5 (Some (0, 5)))
  = (Returned tt, Tk.MkText (py "X world") 1 None)
  /\ replace_one DotEngine.engine world_to_X (Tk.MkText hello_world 5 None)
     = find_next DotEngine.engine world_to_X (Tk.MkText hello_world 5 None).
Proof.
  split.
  - apply (proj1 (replace_one_replaces_selection DotEngine.engine world_to_X
                    (Tk.MkText hello_world 5 (Some (0, 5)))) 0 5);
      [reflexivity | lia | vm_compute; discriminate | simpl; lia].
  - apply (proj2 (replace_one_replaces_selection DotEngine.engine world_to_X
                    (Tk.MkText hello_world 5 None))). reflexivity.
Defined.

(** C4 as stated fails: in "hello world" the only match of "world" is
    [6,11); with "hello" selected, which is no match, [replace_one] still
    replaces the selection and finds nothing. *)
Lemma replace_one_ignores_the_match :
  let w := Tk.MkText hello_world 5 (Some (0, 5)) in
  pattern_search DotEngine.engine (Escaped (py "world") false) hello_world 0
    = Some (6, 11)
  /\ Tk.content (snd (replace_one DotEngine.engine world_to_X w)) = py "X world"
  /\ snd (replace_one DotEngine.engine world_to_X w)
     <> snd (find_next DotEngine.engine world_to_X w).
Proof. repeat split. discriminate. Qed.

(** ** Replace all *)

(** C7: [replace_all] does nothing for an empty needle; otherwise it
    substitutes over the whole text once, and puts the result in place of
    the buffer's content only if it differs from the text, leaving the
    widget as it is if not.  On "foo foo foo", "foo" by "bar" gives
    "bar bar bar", and doing it again changes nothing. *)
Theorem replace_all_substitutes (E : ReEngine) (d : Dialog) (w : Tk.Text) :
  (find_var d = [] -> replace_all E d w = (Returned tt, w))
  /\ (forall p new_text,
        find_var d <> [] ->
        fst (compile_needle E d w) = Returned p ->
        pattern_sub E p (replace_var d) (Tk.content w) = Some new_text ->
        fst (replace_all E d w) = Returned tt
        /\ Tk.content (snd (replace_all E d w)) = new_text
        /\ (new_text = Tk.content w -> snd (replace_all E d w) = w))
  /\ (let w0 := Tk.MkText foo_foo_foo 0 None in
      let w1 := snd (replace_all DotEngine.engine foo_to_bar w0) in
      Tk.content w1 = py "bar bar bar"
      /\ replace_all DotEngine.engine foo_to_bar w1 = (Returned tt, w1)).
Proof.
  split; [|split].
  - intros Hn. unfold replace_all. rewrite Hn. reflexivity.
  - intros p new_text Hne Hcomp Hsub.
    assert (Hrun : replace_all E d w =
              if negb (str_eqb new_text (Tk.content w))
              then (Tk.delete (Tk.At (Idx 1 0)) Tk.End ;;;
                    Tk.insert (Tk.At (Idx 1 0)) new_text) w
              else (Returned tt, w)).
    { unfold replace_all. destruct (find_var d) eqn:Hn; [congruence|].
      unfold bind at 1. unfold Tk.get_all, gets. unfold bind at 1.
      pose proof (compile_needle_state E d w) as Hst.
      destruct (compile_needle E d w) as [r w']. simpl in Hcomp, Hst. subst r w'.
      rewrite Hsub. destruct (negb (str_eqb new_text (Tk.content w))); reflexivity. }
    rewrite Hrun. unfold str_eqb.
    destruct (list_eq_dec Z.eq_dec new_text (Tk.content w)) as [Heq|Hneq]; simpl.
    + split; [reflexivity|]. split; [symmetry; exact Heq | reflexivity].
    + destruct (replace_buffer_run new_text w) as [Hr Hc].
      split; [exact Hr|]. split; [exact Hc | congruence].
  - repeat split.
Qed.

Lemma replace_all_substitutes_witness :
  replace_all DotEngine.engine (MkDialog [] (py "bar") false false)
    (Tk.MkText foo_foo_foo 0 None) = (Returned tt, Tk.MkText foo_foo_foo 0 None)
  /\ Tk.content (snd (replace_all DotEngine.engine foo_to_bar
                        (Tk.MkText foo_foo_foo 0 None))) = py "bar bar bar".
Proof.
  split.
  - apply (proj1 (replace_all_substitutes DotEngine.engine
                    (MkDialog [] (py "bar") false false) (Tk.MkText foo_foo_foo 0 None))).
    reflexivity.
  - apply (proj1 (proj2 (replace_all_substitutes DotEngine.engine foo_to_bar
                           (Tk.MkText foo_foo_foo 0 None)))
             (Escaped (py "foo") true) (py "bar bar bar"));
      [discriminate | reflexivity | reflexivity].
Defined.

(** ** Autosave *)

Ltac run_methods :=
  cbv [_autosave_tick save_file save_file_as save_to write_text schedule_autosave
       status _update_title _update_status_caret _on_text_modified root_after
       root_after_cancel emit on_text try_except try_finally bind ret raise gets
       modify Tk.get_all set_log set_dirty set_file_path set_autosave_after_id
       set_highlight_after_id set_after_ids set_text
       text file_path dirty autosave_enabled autosave_secs _highlight_after_id
       _autosave_after_id after_ids log negb].

(** C5 fails on the code: when the write to the bound path fails during an
    autosave tick, [save_file] catches the error itself and shows the
    modal error dialog; the tick still returns, reports "Auto-saved" and
    schedules the next one, and the document stays dirty. *)
Theorem autosave_failure_shows_dialog (env : Env) (a : App) (p : path) :
  autosave_enabled a = true ->
  file_path a = Some p ->
  dirty a = true ->
  write_file env p (Tk.content (text a)) = false ->
  let r := _autosave_tick env a in
  fst r = Returned tt
  /\ log (snd r) =
       log a ++ [ShowError "Failed to save file"; Status "Auto-saved";
                 After (after_ids a) 3000 ResetStatus;
                 After (after_ids a + 1) (autosave_secs a * 1000) AutosaveTick]
  /\ _autosave_after_id (snd r) = Some (after_ids a + 1)
  /\ dirty (snd r) = true
  /\ text (snd r) = text a.
Proof.
  destruct a as [w fp d en secs hid aid ids l]. simpl.
  intros -> -> -> Hw. run_methods. rewrite Hw. cbn.
  rewrite <- !app_assoc. repeat split.
Qed.

Lemma autosave_failure_shows_dialog_witness :
  In (ShowError "Failed to save file") (log (snd (_autosave_tick full_disk dirty_notes))).
Proof.
  destruct (autosave_failure_shows_dialog full_disk dirty_notes (py "/home/u/notes.txt"))
    as (_ & Hlog & _); try reflexivity.
  rewrite Hlog. simpl. auto.
Defined.

(** C6 fails on the code: with no path bound the tick does not look at the
    dirty flag; it writes a snapshot of a clean document as well. *)
Theorem autosave_snapshots_clean_document (env : Env) (a : App) :
  autosave_enabled a = true ->
  file_path a = None ->
  dirty a = false ->
  mkdir env (autosave_dir env) = true ->
  write_file env (autosave_file env) (Tk.content (text a)) = true ->
  let r := _autosave_tick env a in
  fst r = Returned tt
  /\ log (snd r) =
       log a ++ [MadeDir (autosave_dir env);
                 Wrote (autosave_file env) (Tk.content (text a));
                 Status "Auto-saved";
                 After (after_ids a) 3000 ResetStatus;
                 After (after_ids a + 1) (autosave_secs a * 1000) AutosaveTick].
Proof.
  destruct a as [w fp d en secs hid aid ids l]. simpl.
  intros -> -> -> Hd Hw. run_methods. rewrite Hd. cbn. rewrite Hw. cbn.
  rewrite <- !app_assoc. repeat split.
Qed.

Lemma autosave_snapshots_clean_document_witness :
  In (Wrote (py "/tmp/texiteditor_autosave/untitled_1700000000.txt") [])
     (log (snd (_autosave_tick good_disk clean_untitled))).
Proof.
  destruct (autosave_snapshots_clean_document good_disk clean_untitled)
    as (_ & Hlog); try reflexivity.
  rewrite Hlog. simpl. auto.
Defined.

(** ** The dirty flag *)


Lemma save_file_failure env a p :
  save_target env a = Some p ->
  write_file env p (Tk.content (text a)) = false ->
  fst (save_file env a) = Returned false
  /\ dirty (snd (save_file env a)) = dirty a
  /\ text (snd (save_file env a)) = text a
  /\ log (snd (save_file env a)) = log a ++ [ShowError "Failed to save file"].
Proof.
  destruct a as [w fp d en secs hid aid ids l]. unfold save_target. simpl.
  intros Ht Hw. destruct fp as [q|].
  - injection Ht as ->. run_methods. rewrite Hw. cbn. repeat split.
  - run_methods. destruct (asksaveasfilename env) as [|c q]; [discriminate|].
    injection Ht as <-. cbn. rewrite Hw. cbn. repeat split.
Qed.

Lemma _on_text_modified_run a :
  fst (_on_text_modified a) = Returned tt
  /\ dirty (snd (_on_text_modified a)) = true
  /\ text (snd (_on_text_modified a)) = text a.
Proof.
  destruct a as [w fp d en secs hid aid ids l].
  destruct d; run_methods; cbn; repeat split.
Qed.






(** ** Highlighting *)

Lemma set_log_set_log l1 l2 a : set_log l2 (set_log l1 a) = set_log l2 a.
Proof. destruct a; reflexivity. Qed.

Lemma log_set_log l a : log (set_log l a) = l.
Proof. destruct a; reflexivity. Qed.

Lemma set_log_same a : set_log (log a) a = a.
Proof. destruct a; reflexivity. Qed.

Lemma apply_tags_run content tokens : forall pos a,
  apply_tags content tokens pos a =
  (Returned tt, set_log (log a ++ map (tag_add_of content) (token_spans tokens pos)) a).
Proof.
  induction tokens as [|[t value] rest IH]; intros pos a; simpl.
  - rewrite app_nil_r, set_log_same. reflexivity.
  - destruct (len value =? 0); [apply IH|].
    unfold bind, emit, modify. rewrite IH.
    rewrite log_set_log, set_log_set_log, <- app_assoc. reflexivity.
Qed.



Lemma lstrip_whitespace s : forallb isspace s = true -> lstrip s = [].
Proof.
  induction s as [|c s IH]; simpl; [reflexivity|].
  intros H. apply andb_prop in H as [Hc Hs]. rewrite Hc. exact (IH Hs).
Qed.

Lemma lstrip_empty s : lstrip s = [] -> forallb isspace s = true.
Proof.
  induction s as [|c s IH]; simpl; [reflexivity|].
  destruct (isspace c); [exact IH | discriminate].
Qed.

Lemma lstrip_head s c t : lstrip s = c :: t -> isspace c = false.
Proof.
  induction s as [|d s IH]; simpl; [discriminate|].
  destruct (isspace d) eqn:Hd; [exact IH|].
  intros H. injection H as <- _. exact Hd.
Qed.

Lemma forallb_rev {A} (f : A -> bool) l : forallb f (rev l) = forallb f l.
Proof.
  induction l as [|x l IH]; simpl; [reflexivity|].
  rewrite forallb_app, IH. simpl. rewrite andb_true_r. apply andb_comm.
Qed.

(** [not content.strip()] holds exactly for a text of whitespace only. *)
Lemma strip_empty s : strip s = [] <-> forallb isspace s = true.
Proof.
  unfold strip. split.
  - intros H. apply lstrip_empty.
    assert (Hl : lstrip (rev (lstrip s)) = []).
    { destruct (lstrip (rev (lstrip s))) as [|x l]; [reflexivity|].
      simpl in H. destruct (rev l); discriminate. }
    apply lstrip_empty in Hl. rewrite forallb_rev in Hl.
    destruct (lstrip s) as [|c t] eqn:Hs; [reflexivity|].
    apply lstrip_head in Hs. simpl in Hl. rewrite Hs in Hl. discriminate.
  - intros H. rewrite (lstrip_whitespace s H). reflexivity.
Qed.

Section Highlight.

Variable Lexer : Type.
Variable lex : option (str -> Lexer -> list (toktype * str)).
Variable guess_lexer_for_filename : str -> str -> option Lexer.
Variable TextLexer : Lexer.

Lemma _highlight_now_run a :
  _highlight_now Lexer lex guess_lexer_for_filename TextLexer a =
  (Returned tt,
   set_log (log a ++ cleared Lexer lex
              ++ map (tag_add_of (Tk.content (text a)))
                   (highlight Lexer lex guess_lexer_for_filename TextLexer a))
     (set_highlight_after_id None a)).
Proof.
  unfold _highlight_now, highlight, cleared, _get_lexer.
  destruct a as [w fp d en secs hid aid ids l].
  destruct lex as [lex_|]; [|cbn; rewrite app_nil_r; reflexivity].
  unfold bind at 1. unfold modify at 1. unfold bind at 1.
  cbv [_clear_syntax_tags syntax_tags fold_right emit modify bind ret on_text
       Tk.get_all gets set_log set_highlight_after_id set_text text file_path dirty
       autosave_enabled autosave_secs _highlight_after_id _autosave_after_id
       after_ids log].
  destruct (strip (Tk.content w)) as [|c s].
  - cbn. rewrite <- !app_assoc. reflexivity.
  - cbn. destruct (guess_lexer_for_filename _ _); rewrite apply_tags_run;
      cbn; rewrite <- !app_assoc; reflexivity.
Qed.

End Highlight.


(** C10: for a text that is empty or all whitespace a highlight pass adds
    no tag: it ends after clearing the old ones, whatever the lexer
    would answer, and produces no span. *)
Theorem highlight_skips_blank_text (Lexer : Type)
    (lex : option (str -> Lexer -> list (toktype * str)))
    (guess_lexer_for_filename : str -> str -> option Lexer) (TextLexer : Lexer)
    (a : App) :
  forallb isspace (Tk.content (text a)) = true ->
  _highlight_now Lexer lex guess_lexer_for_filename TextLexer a
    = (Returned tt,
       set_log (log a ++ match lex with
                         | None => []
                         | Some _ => map TagRemove syntax_tags
                         end)
         (set_highlight_after_id None a))
  /\ highlight Lexer lex guess_lexer_for_filename TextLexer a = [].
Proof.
  intros Hblank. apply strip_empty in Hblank.
  assert (Hnone : highlight Lexer lex guess_lexer_for_filename TextLexer a = []).
  { unfold highlight. destruct lex; [|reflexivity]. rewrite Hblank. reflexivity. }
  split; [|exact Hnone].
  rewrite _highlight_now_run, Hnone. cbn [map]. rewrite app_nil_r. reflexivity.
Qed.

Lemma highlight_skips_blank_text_witness :
  log (snd (_highlight_now unit (Some (fun _ _ => def_f_tokens)) (fun _ _ => None) tt
              (MkApp (Tk.MkText (py "  ") 0 None) None false true 10 None None 0 [])))
  = map TagRemove syntax_tags.
Proof.
  rewrite (proj1 (highlight_skips_blank_text unit (Some (fun _ _ => def_f_tokens))
                    (fun _ _ => None) tt
                    (MkApp (Tk.MkText (py "  ") 0 None) None false true 10 None None 0 [])
                    eq_refl)).
  reflexivity.
Defined.

Example highlight_def_f :
  highlight unit (Some (fun _ _ => def_f_tokens)) (fun _ _ => None) tt def_f
  = [Span "tok-kw" 0 3; Span "tok-text" 3 4; Span "tok-func" 4 5].
Proof. reflexivity. Qed.

(** * Further properties *)

(** ** Indices and the widget *)

Lemma lf_only_forallb text :
  forallb (fun c => negb (is_linebreak c) || (c =? LF)) text = true -> lf_only text.
Proof.
  intros H c Hin Hb. rewrite forallb_forall in H. specialize (H c Hin).
  rewrite Hb in H. simpl in H. apply Z.eqb_eq. exact H.
Qed.

Lemma roundtrip_inside_witness :
  _index_to_int (int_to_index ab_newline 2) ab_newline = 2.
Proof.
  apply (roundtrip_inside ab_newline 2).
  - apply lf_only_forallb. reflexivity.
  - vm_compute. split; [discriminate | reflexivity].
Defined.

Lemma roundtrip_at_end_witness :
  _index_to_int (int_to_index ab_newline_cd (len ab_newline_cd)) ab_newline_cd
  = len ab_newline_cd.
Proof.
  apply (roundtrip_at_end ab_newline_cd).
  - apply lf_only_forallb. reflexivity.
  - vm_compute. discriminate.
Defined.

(** The walk of [scan] and the widget's own reading of "line.col" agree:
    the index reached after [pos] characters is the one the widget
    resolves to [pos] characters further on. *)
Lemma seek_scan text : forall pos l0 c0 off,
  0 <= pos <= len text ->
  let i := scan text pos l0 c0 in
  l0 <= line i
  /\ (line i = l0 -> col i = c0 + pos)
  /\ Tk.seek text (line i - l0) (if line i =? l0 then col i - c0 else col i) off
     = off + pos.
Proof.
  induction text as [|ch rest IH]; intros pos l0 c0 off Hpos; cbn [scan].
  - unfold len in Hpos. simpl in Hpos. cbn [line col Tk.seek].
    repeat split; lia.
  - destruct (Z.eqb_spec pos 0) as [->|Hnz].
    + cbn [line col]. rewrite Z.sub_diag, Z.eqb_refl. cbn [Tk.seek].
      replace (c0 - c0 <=? 0) with true by (symmetry; apply Z.leb_le; lia).
      simpl. repeat split; lia.
    + rewrite len_cons in Hpos.
      assert (Hrest : 0 <= pos - 1 <= len rest) by lia.
      destruct (Z.eqb_spec ch LF) as [->|Hch].
      * destruct (IH (pos - 1) (l0 + 1) 0 (off + 1) Hrest) as (Hle & _ & Hseek).
        set (i := scan rest (pos - 1) (l0 + 1) 0) in *.
        split; [lia|]. split; [lia|].
        replace (line i =? l0) with false by (symmetry; apply Z.eqb_neq; lia).
        cbn [Tk.seek].
        replace (0 <? line i - l0) with true by (symmetry; apply Z.ltb_lt; lia).
        rewrite Z.eqb_refl.
        replace (line i - l0 - 1) with (line i - (l0 + 1)) by lia.
        destruct (line i =? l0 + 1);
          [replace (col i - 0) with (col i) in Hseek by lia|]; rewrite Hseek; lia.
      * destruct (IH (pos - 1) l0 (c0 + 1) (off + 1) Hrest) as (Hle & Hcol & Hseek).
        set (i := scan rest (pos - 1) l0 (c0 + 1)) in *.
        split; [lia|]. split; [intros Hl; specialize (Hcol Hl); lia|].
        cbn [Tk.seek].
        replace (ch =? LF) with false by (symmetry; apply Z.eqb_neq; exact Hch).
        destruct (Z.eqb_spec (line i) l0) as [Hl|Hl].
        -- specialize (Hcol Hl). rewrite Hl, Z.sub_diag in *.
           change (0 <? 0) with false. cbv iota.
           replace (col i - c0 <=? 0) with false by (symmetry; apply Z.leb_gt; lia).
           cbn [orb].
           replace (col i - c0 - 1) with (col i - (c0 + 1)) by lia.
           rewrite Hseek. lia.
        -- replace (0 <? line i - l0) with true by (symmetry; apply Z.ltb_lt; lia).
           rewrite Hseek. lia.
Qed.

Lemma offset_of_scan text pos :
  0 <= pos <= len text -> Tk.offset_of text (scan text pos 1 0) = pos.
Proof.
  intros Hpos. destruct (seek_scan text pos 1 0 0 Hpos) as (Hle & _ & Hseek).
  cbv zeta in *. unfold Tk.offset_of.
  replace (line (scan text pos 1 0) <? 1) with false by (symmetry; apply Z.ltb_ge; lia).
  destruct (line (scan text pos 1 0) =? 1);
    [replace (col (scan text pos 1 0) - 0) with (col (scan text pos 1 0)) in Hseek by lia|];
    rewrite Hseek; lia.
Qed.

(** At the end of a text that breaks its lines at "\n" only and does not
    end in one, [_int_to_index] gives the index the walk arrives at. *)
Lemma int_to_index_end text :
  lf_only text -> last text 0 <> LF ->
  int_to_index text (len text) = scan text (len text) 1 0.
Proof.
  intros Hlf Hlast. destruct text as [|ch rest] eqn:Ht; [reflexivity|].
  rewrite <- Ht in *. assert (Hne : text <> []) by (rewrite Ht; discriminate).
  assert (Hpos : 0 < len text) by (rewrite Ht, len_cons; pose proof (len_nonneg rest); lia).
  unfold int_to_index.
  replace (len text <=? 0) with false by (symmetry; apply Z.leb_gt; lia).
  replace (len text >=? len text) with true by (symmetry; apply Z.geb_le; lia).
  rewrite (scan_end text Hlf Hne Hlast 1 0). cbv zeta.
  assert (Hls : 0 < len (splitlines false text)).
  { rewrite Ht. pose proof (splitlines_nonempty false ch rest).
    destruct (splitlines false (ch :: rest)) as [|x xs]; [congruence|].
    rewrite len_cons. pose proof (len_nonneg xs). lia. }
  replace (len (splitlines false text) =? 0) with false
    by (symmetry; apply Z.eqb_neq; lia).
  f_equal; [lia|]. destruct (_ =? 1); lia.
Qed.

(** X4: The index [_int_to_index] returns for an offset before the end of the
    text, or for the end of a text as in [exact_at], is resolved by the
    widget to that very offset: a tag or a selection put there lands on
    the characters meant. *)
Theorem int_to_index_resolves text pos :
  exact_at text pos ->
  Tk.offset_of text (int_to_index text pos) = pos
  /\ Tk.offset_of text (EditorApp._int_to_index pos text) = pos.
Proof.
  intros Hex. rewrite <- int_to_index_same.
  assert (H : Tk.offset_of text (int_to_index text pos) = pos); [|split; exact H].
  destruct Hex as [Hin | (-> & Hlf & Hlast)].
  - unfold int_to_index. destruct (Z.leb_spec pos 0) as [Hz|Hp].
    + assert (pos = 0) as -> by lia. apply offset_of_start.
    + destruct (Z.geb_spec pos (len text)); [lia|]. apply offset_of_scan. lia.
  - rewrite (int_to_index_end text Hlf Hlast). apply offset_of_scan.
    pose proof (len_nonneg text). lia.
Qed.

Lemma int_to_index_resolves_witness :
  Tk.offset_of abcXabc (int_to_index abcXabc 7) = 7
  /\ Tk.offset_of abcXabc (EditorApp._int_to_index 7 abcXabc) = 7.
Proof.
  apply (int_to_index_resolves abcXabc 7). right.
  split; [reflexivity|]. split; [apply lf_only_forallb; reflexivity|].
  vm_compute. discriminate.
Defined.

(** X3: The dialog and the window each have an [_int_to_index] of their own,
    written differently at the end of the text; for every text and every
    integer the two return the same index. *)
Theorem int_to_index_methods_agree (text : str) (pos : Z) :
  fst (FindReplaceDialog._int_to_index pos (Tk.MkText text 0 None))
  = Returned (EditorApp._int_to_index pos text).
Proof.
  unfold FindReplaceDialog._int_to_index, bind, Tk.get_all, gets, ret. cbn [fst Tk.content].
  f_equal. apply int_to_index_same.
Qed.

(** ** The dialog on a literal needle *)

Section DialogRuns.

Variable E : ReEngine.

Lemma _search_run d start w p off :
  find_var d <> [] ->
  fst (compile_needle E d w) = Returned p ->
  Tk.resolve w start = Returned off ->
  _search E d start w =
  (Returned
     match pattern_search E p (Tk.content w)
             (_index_to_int (Tk.index_of (Tk.content w) off) (Tk.content w) + 1) with
     | Some m => Some (span_of (Tk.content w) m)
     | None =>
         match pattern_search E p (Tk.content w) 0 with
         | Some m => Some (span_of (Tk.content w) m)
         | None => None
         end
     end, w).
Proof.
  intros Hne Hcomp Hres. unfold _search.
  destruct (find_var d) as [|c needle] eqn:Hn; [congruence|].
  unfold bind at 1.
  pose proof (compile_needle_state E d w) as Hst.
  destruct (compile_needle E d w) as [r w']. simpl in Hcomp, Hst. subst r w'.
  unfold bind at 1. unfold Tk.get_all, gets. unfold bind at 1.
  rewrite (index_run _ _ _ Hres). unfold ret.
  destruct (pattern_search E p (Tk.content w) _) as [m|]; [apply span_indices_run|].
  destruct (pattern_search E p (Tk.content w) 0) as [m|];
    [apply span_indices_run | reflexivity].
Qed.

(** What [find_next] does with the span [_search] returned. *)
Lemma select_span_run w (i1 i2 : tkindex) s e :
  Tk.offset_of (Tk.content w) i1 = s ->
  Tk.offset_of (Tk.content w) i2 = e ->
  s < e ->
  (Tk.tag_remove_sel_all ;;;
   Tk.tag_add_sel (Tk.At i1) (Tk.At i2) ;;;
   Tk.mark_set_insert (Tk.At i2) ;;;
   Tk.see (Tk.At i1)) w
  = (Returned tt, Tk.MkText (Tk.content w) e (Some (s, e))).
Proof.
  intros H1 H2 Hlt.
  unfold Tk.tag_remove_sel_all, Tk.tag_add_sel, Tk.mark_set_insert, Tk.see,
    Tk.resolved, bind, modify, ret, Tk.resolve.
  cbn [Tk.content Tk.insert_mark Tk.sel]. rewrite H1, H2.
  replace (s <? e) with true by (symmetry; apply Z.ltb_lt; exact Hlt).
  cbn [Tk.content Tk.insert_mark Tk.sel]. rewrite H2. reflexivity.
Qed.

Lemma find_next_selects d w p s e :
  find_var d <> [] ->
  fst (compile_needle E d w) = Returned p ->
  found_match E p w = Some (s, e) ->
  s < e ->
  Tk.offset_of (Tk.content w) (int_to_index (Tk.content w) s) = s ->
  Tk.offset_of (Tk.content w) (int_to_index (Tk.content w) e) = e ->
  find_next E d w = (Returned tt, Tk.MkText (Tk.content w) e (Some (s, e))).
Proof.
  intros Hne Hcomp Hfound Hlt Hs He. unfold find_next. unfold bind at 1.
  rewrite (_search_run d Tk.Insert w p (Tk.insert_mark w) Hne Hcomp eq_refl).
  unfold found_match in Hfound. cbv zeta in Hfound.
  destruct (pattern_search E p (Tk.content w) _) as [m|].
  - injection Hfound as ->. unfold span_of. cbn [fst snd].
    apply select_span_run; assumption.
  - rewrite Hfound. unfold span_of. cbn [fst snd].
    apply select_span_run; assumption.
Qed.

Lemma find_next_nothing d w :
  fst (_search E d Tk.Insert w) = Returned None ->
  find_next E d w = (Returned tt, w).
Proof.
  intros H. unfold find_next, bind.
  pose proof (_search_state E d Tk.Insert w) as Hst.
  destruct (_search E d Tk.Insert w) as [r w']. simpl in H, Hst. subst r w'.
  reflexivity.
Qed.

Lemma occurs_at_tail ic needle c rest k :
  occurs_at E ic needle rest k -> occurs_at E ic needle (c :: rest) (S k).
Proof. intros [Hk Hm]. split; [simpl; lia | exact Hm]. Qed.

Lemma replace_matches_absent ic needle f text :
  (forall k, ~ occurs_at E ic needle text k) ->
  replace_matches E ic needle f text 0 = text.
Proof.
  induction text as [|c rest IH]; intros Habs; [reflexivity|].
  cbn [replace_matches].
  destruct (match_here E ic needle (c :: rest)) eqn:Hm.
  - destruct (Habs 0%nat). split; [simpl; lia | exact Hm].
  - f_equal. apply IH. intros k Hk. apply (Habs (S k)). apply occurs_at_tail. exact Hk.
Qed.

(** A case-sensitive match at the head of the text is the needle itself. *)
Lemma match_here_exact needle : forall text,
  match_here E false needle text = true ->
  text = needle ++ skipn (List.length needle) text.
Proof.
  induction needle as [|a needle IH]; intros text Hm; [reflexivity|].
  destruct text as [|b text]; [discriminate|].
  cbn [match_here char_eq] in Hm. apply andb_prop in Hm as [Hab Hrest].
  apply Z.eqb_eq in Hab. subst b. cbn [List.length skipn app].
  f_equal. apply IH. exact Hrest.
Qed.

Lemma replace_matches_self a needle : forall text skip,
  replace_matches E false (a :: needle) (fun _ => a :: needle) text skip
  = skipn skip text.
Proof.
  intros txt. induction txt as [|c rest IH]; intros skip.
  - destruct skip; reflexivity.
  - cbn [replace_matches]. destruct skip as [|k]; [|apply IH].
    destruct (match_here E false (a :: needle) (c :: rest)) eqn:Hm.
    + rewrite IH. apply match_here_exact in Hm.
      cbn [List.length skipn app] in Hm. cbn [List.length skipn app].
      injection Hm as Ha Hrest. subst c.
      replace (S (List.length needle) - 1)%nat with (List.length needle) by lia.
      f_equal. symmetry. exact Hrest.
    + rewrite IH. reflexivity.
Qed.

Lemma replace_all_literal_run d w new_text :
  find_var d <> [] ->
  regex_var d = false ->
  existsb (Z.eqb BACKSLASH) (replace_var d) = false ->
  replace_matches E (negb (case_var d)) (find_var d) (fun _ => replace_var d)
    (Tk.content w) 0 = new_text ->
  new_text = Tk.content w ->
  replace_all E d w = (Returned tt, w).
Proof.
  intros Hne Hlit Hbs Hsub Hsame. unfold replace_all.
  destruct (find_var d) as [|c needle] eqn:Hn; [congruence|].
  unfold bind at 1. unfold Tk.get_all, gets. unfold bind at 1.
  rewrite (compile_needle_literal E d w Hlit). rewrite Hn.
  cbn [pattern_sub]. unfold template. rewrite Hbs. rewrite Hsub.
  unfold str_eqb. destruct (list_eq_dec Z.eq_dec new_text (Tk.content w)); [|congruence].
  reflexivity.
Qed.

End DialogRuns.

(** X5: When the search settles on a match [s .. e) whose two offsets
    [_int_to_index] gets right, [find_next] selects exactly the match and
    puts the insert mark at its end; the text stays as it is. *)
Theorem find_next_selects_match (E : ReEngine) (d : Dialog) (w : Tk.Text)
    (p : pattern E) (s e : Z) :
  find_var d <> [] ->
  fst (compile_needle E d w) = Returned p ->
  found_match E p w = Some (s, e) ->
  s < e ->
  exact_at (Tk.content w) s ->
  exact_at (Tk.content w) e ->
  find_next E d w = (Returned tt, Tk.MkText (Tk.content w) e (Some (s, e))).
Proof.
  intros Hne Hcomp Hfound Hlt Hs He.
  apply (find_next_selects E d w p s e Hne Hcomp Hfound Hlt).
  - destruct Hs as [Hin | (-> & Hlf & Hlast)].
    + unfold int_to_index. destruct (Z.leb_spec s 0) as [Hz|Hp].
      * assert (s = 0) as -> by lia. apply offset_of_start.
      * destruct (Z.geb_spec s (len (Tk.content w))); [lia|]. apply offset_of_scan. lia.
    + rewrite (int_to_index_end _ Hlf Hlast). apply offset_of_scan.
      pose proof (len_nonneg (Tk.content w)). lia.
  - destruct He as [Hin | (-> & Hlf & Hlast)].
    + unfold int_to_index. destruct (Z.leb_spec e 0) as [Hz|Hp].
      * assert (e = 0) as -> by lia. apply offset_of_start.
      * destruct (Z.geb_spec e (len (Tk.content w))); [lia|]. apply offset_of_scan. lia.
    + rewrite (int_to_index_end _ Hlf Hlast). apply offset_of_scan.
      pose proof (len_nonneg (Tk.content w)). lia.
Qed.

Lemma find_next_selects_match_witness :
  find_next DotEngine.engine find_abc (Tk.MkText abcXabc 3 None)
  = (Returned tt, Tk.MkText abcXabc 7 (Some (4, 7))).
Proof.
  apply (find_next_selects_match DotEngine.engine find_abc (Tk.MkText abcXabc 3 None)
           (Escaped (py "abc") false) 4 7).
  - discriminate.
  - reflexivity.
  - reflexivity.
  - lia.
  - left. vm_compute. split; [discriminate | reflexivity].
  - right. split; [reflexivity|]. split; [apply lf_only_forallb; reflexivity|].
    vm_compute. discriminate.
Defined.

(** X6: With an empty needle, or a literal needle that occurs nowhere in the
    text, [find_next] leaves the widget as it is: the text, the insert
    mark, and the selection, which is not cleared. *)
Theorem find_next_without_match (E : ReEngine) (d : Dialog) (w : Tk.Text) :
  find_var d = []
  \/ (regex_var d = false
      /\ forall k, ~ occurs_at E (negb (case_var d)) (find_var d) (Tk.content w) k) ->
  find_next E d w = (Returned tt, w).
Proof.
  intros H. apply find_next_nothing. destruct H as [Hn | [Hlit Habs]].
  - unfold _search. rewrite Hn. reflexivity.
  - destruct (find_var d) as [|c needle] eqn:Hn; [unfold _search; rewrite Hn; reflexivity|].
    assert (Hne : find_var d <> []) by (rewrite Hn; discriminate).
    rewrite <- Hn in Habs.
    rewrite (_search_run E d Tk.Insert w (Escaped (find_var d) (negb (case_var d)))
               (Tk.insert_mark w) Hne);
      [| rewrite (compile_needle_literal E d w Hlit); reflexivity | reflexivity].
    cbn [pattern_search fst]. rewrite !(find_from_absent E _ _ _ _ _ Habs). reflexivity.
Qed.

Lemma absent_by_search E ic needle text :
  find_from E ic needle text 0 0 = None ->
  forall k, ~ occurs_at E ic needle text k.
Proof. intros H. apply find_from_start_none. exact H. Qed.

Lemma find_next_without_match_witness :
  find_next DotEngine.engine find_abd (Tk.MkText abcXabc 3 (Some (0, 3)))
  = (Returned tt, Tk.MkText abcXabc 3 (Some (0, 3))).
Proof.
  apply (find_next_without_match DotEngine.engine find_abd). right.
  split; [reflexivity|]. apply absent_by_search. reflexivity.
Defined.

(** X7: In literal mode, with a replacement that holds no backslash,
    [replace_all] for a needle that occurs nowhere in the text returns and
    leaves the widget untouched: nothing is deleted or inserted. *)
Theorem replace_all_without_match (E : ReEngine) (d : Dialog) (w : Tk.Text) :
  find_var d <> [] ->
  regex_var d = false ->
  existsb (Z.eqb BACKSLASH) (replace_var d) = false ->
  (forall k, ~ occurs_at E (negb (case_var d)) (find_var d) (Tk.content w) k) ->
  replace_all E d w = (Returned tt, w).
Proof.
  intros Hne Hlit Hbs Habs.
  apply (replace_all_literal_run E d w (Tk.content w) Hne Hlit Hbs); [|reflexivity].
  apply replace_matches_absent. exact Habs.
Qed.

Lemma replace_all_without_match_witness :
  replace_all DotEngine.engine find_abd (Tk.MkText abcXabc 3 (Some (0, 3)))
  = (Returned tt, Tk.MkText abcXabc 3 (Some (0, 3))).
Proof.
  apply (replace_all_without_match DotEngine.engine find_abd).
  - discriminate.
  - reflexivity.
  - reflexivity.
  - apply absent_by_search. reflexivity.
Defined.

(** X8: Replacing a literal, case-sensitive needle by itself leaves the widget
    untouched, however often the needle occurs: the substitution gives the
    text back, and [replace_all] then neither deletes nor inserts. *)
Theorem replace_all_by_itself (E : ReEngine) (d : Dialog) (w : Tk.Text) :
  find_var d <> [] ->
  regex_var d = false ->
  case_var d = true ->
  replace_var d = find_var d ->
  existsb (Z.eqb BACKSLASH) (find_var d) = false ->
  replace_all E d w = (Returned tt, w).
Proof.
  intros Hne Hlit Hcase Hrepl Hbs.
  apply (replace_all_literal_run E d w (Tk.content w) Hne Hlit);
    [rewrite Hrepl; exact Hbs | | reflexivity].
  rewrite Hcase, Hrepl. cbn [negb].
  destruct (find_var d) as [|a needle]; [congruence|].
  apply replace_matches_self.
Qed.

Lemma replace_all_by_itself_witness :
  replace_all DotEngine.engine abc_to_abc (Tk.MkText abcXabc 3 None)
  = (Returned tt, Tk.MkText abcXabc 3 None).
Proof.
  apply (replace_all_by_itself DotEngine.engine abc_to_abc);
    [discriminate | reflexivity | reflexivity | reflexivity | reflexivity].
Defined.

(** ** New, open and save *)

Ltac run_gate :=
  cbv [new_file open_file _maybe_save_changes _schedule_highlight];
  run_methods.

Lemma _maybe_save_changes_clean env a :
  dirty a = false -> _maybe_save_changes env a = (Returned true, a).
Proof. destruct a. simpl. intros ->. reflexivity. Qed.

Lemma _maybe_save_changes_cancel env a :
  dirty a = true -> askyesnocancel env = None ->
  _maybe_save_changes env a = (Returned false, a).
Proof. destruct a. simpl. intros -> H. run_gate. rewrite H. reflexivity. Qed.

(** X9: The unsaved-changes question, answered with Cancel, stops New and Open
    before they touch anything: the whole state of the window is as it
    was. *)
Theorem cancel_keeps_document (env : Env) (a : App) :
  dirty a = true ->
  askyesnocancel env = None ->
  new_file env a = (Returned tt, a) /\ open_file env a = (Returned tt, a).
Proof.
  intros Hd Hc. unfold new_file, open_file, bind.
  rewrite (_maybe_save_changes_cancel env a Hd Hc). split; reflexivity.
Qed.

Lemma cancel_keeps_document_witness :
  new_file good_disk dirty_notes = (Returned tt, dirty_notes)
  /\ open_file good_disk dirty_notes = (Returned tt, dirty_notes).
Proof. apply (cancel_keeps_document good_disk dirty_notes); reflexivity. Defined.

(** X10: When the question is answered with Yes and the save fails, New and
    Open stop as well: the text is kept and stays dirty, and what they
    leave is what the failed save left. *)
Theorem failed_save_keeps_document (env : Env) (a : App) (p : path) :
  dirty a = true ->
  askyesnocancel env = Some true ->
  save_target env a = Some p ->
  write_file env p (Tk.content (text a)) = false ->
  new_file env a = (Returned tt, snd (save_file env a))
  /\ open_file env a = (Returned tt, snd (save_file env a))
  /\ text (snd (save_file env a)) = text a
  /\ dirty (snd (save_file env a)) = true.
Proof.
  intros Hd Hyes Ht Hw.
  destruct (save_file_failure env a p Ht Hw) as (Hr & Hdirty & Htext & _).
  assert (Hgate : _maybe_save_changes env a = (Returned false, snd (save_file env a))).
  { unfold _maybe_save_changes, bind, gets. rewrite Hd, Hyes. cbn [negb].
    destruct (save_file env a) as [r a']. simpl in Hr. subst r. reflexivity. }
  unfold new_file, open_file, bind. rewrite Hgate.
  repeat split; [exact Htext | congruence].
Qed.

Lemma failed_save_keeps_document_witness :
  Tk.content (text (snd (open_file full_disk_yes dirty_notes))) = py "draft"
  /\ dirty (snd (open_file full_disk_yes dirty_notes)) = true.
Proof.
  destruct (failed_save_keeps_document full_disk_yes dirty_notes (py "/home/u/notes.txt"))
    as (_ & Hopen & Htext & Hdirty); try reflexivity.
  rewrite Hopen. cbn [snd]. rewrite Htext, Hdirty. split; reflexivity.
Defined.

(** X11: An open that got past the question but not to a file's text, the file
    dialog being dismissed or the file not readable, leaves the text, the
    path and the dirty flag as they were; an unreadable file is reported in
    the error dialog. *)
Theorem open_failure_keeps_document (env : Env) (a : App) :
  dirty a = false ->
  askopenfilename env = [] \/ read_file env (askopenfilename env) = None ->
  fst (open_file env a) = Returned tt
  /\ text (snd (open_file env a)) = text a
  /\ file_path (snd (open_file env a)) = file_path a
  /\ dirty (snd (open_file env a)) = false
  /\ log (snd (open_file env a)) =
       log a ++ match askopenfilename env with
                | [] => []
                | _ :: _ => [ShowError "Failed to open file"]
                end.
Proof.
  intros Hd Hfail. unfold open_file, bind.
  rewrite (_maybe_save_changes_clean env a Hd). cbn [negb].
  destruct (askopenfilename env) as [|c p] eqn:Hp.
  - unfold ret. cbn [fst snd]. rewrite app_nil_r. repeat split. exact Hd.
  - destruct Hfail as [Hfail|Hfail]; [discriminate|]. rewrite Hfail.
    destruct a as [w fp d en secs hid aid ids l]. simpl in Hd. subst d.
    run_methods. repeat split.
Qed.

Lemma open_failure_keeps_document_witness :
  text (snd (open_file full_disk clean_untitled)) = text clean_untitled
  /\ log (snd (open_file full_disk_yes clean_untitled)) = [ShowError "Failed to open file"].
Proof.
  split.
  - apply (open_failure_keeps_document full_disk clean_untitled);
      [reflexivity | left; reflexivity].
  - apply (open_failure_keeps_document full_disk_yes clean_untitled);
      [reflexivity | right; reflexivity].
Defined.



(** Save As with the file dialog dismissed returns False and changes
    nothing; so does Save when no path is bound. *)
Theorem save_as_dismissed (env : Env) (a : App) :
  asksaveasfilename env = [] ->
  save_file_as env a = (Returned false, a)
  /\ (file_path a = None -> save_file env a = (Returned false, a)).
Proof.
  intros Hp. unfold save_file, save_file_as, bind, gets. rewrite Hp.
  split; [reflexivity|]. intros ->. reflexivity.
Qed.

Lemma save_as_dismissed_witness :
  save_file full_disk dirty_untitled = (Returned false, dirty_untitled).
Proof.
  apply (proj2 (save_as_dismissed full_disk dirty_untitled eq_refl)). reflexivity.
Defined.

(** X13: Save As binds the chosen path before it writes: when the write fails,
    the error dialog is shown, the text and the dirty flag are as they
    were, and the window stays bound to the path that could not be
    written, whatever path it had. *)
Theorem save_as_failure_rebinds (env : Env) (a : App) (p : path) :
  asksaveasfilename env = p -> p <> [] ->
  write_file env p (Tk.content (text a)) = false ->
  save_file_as env a =
  (Returned false, set_log (log a ++ [ShowError "Failed to save file"])
                     (set_file_path (Some p) a)).
Proof.
  intros Hp Hne Hw. destruct a as [w fp d en secs hid aid ids l]. simpl in Hw.
  run_methods. rewrite Hp. destruct p as [|c p]; [congruence|].
  cbn. rewrite Hw. reflexivity.
Qed.

Lemma save_as_failure_rebinds_witness :
  file_path (snd (save_file_as full_disk_yes saved_notes)) = Some (py "/home/u/notes.txt")
  /\ dirty (snd (save_file_as full_disk_yes dirty_untitled)) = true.
Proof.
  rewrite (save_as_failure_rebinds full_disk_yes saved_notes (py "/home/u/notes.txt"))
    by (reflexivity || discriminate).
  rewrite (save_as_failure_rebinds full_disk_yes dirty_untitled (py "/home/u/notes.txt"))
    by (reflexivity || discriminate).
  split; reflexivity.
Defined.

(** ** More on the autosave tick *)

Ltac tick_cases env w fp d :=
  run_methods;
  destruct fp as [q|];
  [ destruct d; [destruct (write_file env q (Tk.content w))|]
  | destruct (mkdir env (autosave_dir env));
    [destruct (write_file env (autosave_file env) (Tk.content w))|] ];
  cbn.

(** X14: With autosave on, a tick returns whatever the disk does, leaves the
    text and the path as they were, and ends by scheduling the next tick
    after the configured interval, which is then the pending one. *)
Theorem autosave_tick_reschedules (env : Env) (a : App) :
  autosave_enabled a = true ->
  let r := _autosave_tick env a in
  fst r = Returned tt
  /\ text (snd r) = text a
  /\ file_path (snd r) = file_path a
  /\ exists id events,
       _autosave_after_id (snd r) = Some id
       /\ log (snd r) =
            log a ++ events ++ [After id (autosave_secs a * 1000) AutosaveTick].
Proof.
  destruct a as [w fp d en secs hid aid ids l]. simpl. intros ->.
  tick_cases env w fp d; (split; [reflexivity|]); (split; [reflexivity|]);
    (split; [reflexivity|]); rewrite <- ?app_assoc; cbn [app].
  - exists (ids + 1 + 1),
      [Wrote q (Tk.content w); Title (Some q) false; Status "Saved";
       After ids 3000 ResetStatus; Status "Auto-saved";
       After (ids + 1) 3000 ResetStatus]. split; reflexivity.
  - exists (ids + 1),
      [ShowError "Failed to save file"; Status "Auto-saved";
       After ids 3000 ResetStatus]. split; reflexivity.
  - exists (ids + 1), [Status "Auto-saved"; After ids 3000 ResetStatus].
    split; reflexivity.
  - exists (ids + 1),
      [MadeDir (autosave_dir env); Wrote (autosave_file env) (Tk.content w);
       Status "Auto-saved"; After ids 3000 ResetStatus]. split; reflexivity.
  - exists ids, [MadeDir (autosave_dir env)]. split; reflexivity.
  - exists ids, []. split; reflexivity.
Qed.

Lemma autosave_tick_reschedules_witness :
  _autosave_after_id (snd (_autosave_tick full_disk dirty_untitled)) = Some 1
  /\ text (snd (_autosave_tick full_disk dirty_untitled)) = text dirty_untitled.
Proof.
  destruct (autosave_tick_reschedules full_disk dirty_untitled eq_refl)
    as (_ & Htext & _). split; [reflexivity | exact Htext].
Defined.

(** With autosave off, a tick only forgets its timer id: it writes
    nothing, shows nothing and schedules nothing. *)
Theorem autosave_tick_disabled (env : Env) (a : App) :
  autosave_enabled a = false ->
  _autosave_tick env a = (Returned tt, set_autosave_after_id None a).
Proof.
  destruct a as [w fp d en secs hid aid ids l]. simpl. intros ->. reflexivity.
Qed.

Lemma autosave_tick_disabled_witness :
  log (snd (_autosave_tick good_disk
              (MkApp (Tk.MkText (py "draft") 5 None) None true false 10 None (Some 0) 1 [])))
  = [].
Proof. rewrite autosave_tick_disabled by reflexivity. reflexivity. Defined.

(** X15: Whatever a tick writes, it writes the widget's text, and to the bound
    path if there is one, else to the snapshot file in the temp
    directory: never to another file. *)
Theorem autosave_tick_writes_only_target (env : Env) (a : App) (p : path) (data : str) :
  In (Wrote p data) (log (snd (_autosave_tick env a))) ->
  In (Wrote p data) (log a)
  \/ (p = autosave_target env a /\ data = Tk.content (text a)).
Proof.
  destruct a as [w fp d en secs hid aid ids l]. unfold autosave_target.
  destruct en; [|simpl; auto].
  cbn [file_path text]. tick_cases env w fp d; rewrite <- ?app_assoc;
    intros Hin; apply in_app_or in Hin; destruct Hin as [Hin|Hin]; auto;
    simpl in Hin;
    repeat (destruct Hin as [Hin|Hin];
            [try discriminate; try (injection Hin as <- <-; auto)|]);
    try contradiction.
Qed.

Lemma autosave_tick_writes_only_target_witness :
  py "/tmp/texiteditor_autosave/untitled_1700000000.txt"
    = autosave_target good_disk dirty_untitled
  /\ py "draft" = Tk.content (text dirty_untitled).
Proof.
  destruct (autosave_tick_writes_only_target good_disk dirty_untitled
              (py "/tmp/texiteditor_autosave/untitled_1700000000.txt") (py "draft"))
    as [Hold | Hnew].
  - vm_compute. auto.
  - destruct Hold.
  - exact Hnew.
Defined.

(** X16: With no path bound, a tick whose snapshot cannot be written, for the
    directory or for the file, says nothing: no dialog, no status line;
    it only schedules the next tick. *)
Theorem autosave_snapshot_failure_silent (env : Env) (a : App) :
  autosave_enabled a = true ->
  file_path a = None ->
  mkdir env (autosave_dir env) = false
  \/ write_file env (autosave_file env) (Tk.content (text a)) = false ->
  let r := _autosave_tick env a in
  fst r = Returned tt
  /\ log (snd r) =
       log a ++ (if mkdir env (autosave_dir env) then [MadeDir (autosave_dir env)] else [])
             ++ [After (after_ids a) (autosave_secs a * 1000) AutosaveTick].
Proof.
  destruct a as [w fp d en secs hid aid ids l]. simpl. intros -> -> Hfail.
  run_methods. destruct (mkdir env (autosave_dir env)); cbn.
  - destruct Hfail as [Hfail|Hfail]; [discriminate|]. rewrite Hfail. cbn.
    rewrite <- !app_assoc. split; reflexivity.
  - split; reflexivity.
Qed.

Lemma autosave_snapshot_failure_silent_witness :
  log (snd (_autosave_tick full_disk dirty_untitled))
  = [MadeDir (py "/tmp/texiteditor_autosave"); After 1 10000 AutosaveTick].
Proof.
  destruct (autosave_snapshot_failure_silent full_disk dirty_untitled)
    as (_ & Hlog); [reflexivity | reflexivity | right; reflexivity |].
  rewrite Hlog. reflexivity.
Defined.

(** X17: A tick on a dirty document bound to a path that takes the write saves
    it: the text is written to that path and the dirty flag goes down; on
    a clean document bound to a path it writes nothing. *)
Theorem autosave_tick_bound_path (env : Env) (a : App) (p : path) :
  autosave_enabled a = true ->
  file_path a = Some p ->
  (dirty a = true -> write_file env p (Tk.content (text a)) = true ->
   dirty (snd (_autosave_tick env a)) = false
   /\ In (Wrote p (Tk.content (text a))) (log (snd (_autosave_tick env a))))
  /\ (dirty a = false ->
      dirty (snd (_autosave_tick env a)) = false
      /\ log (snd (_autosave_tick env a)) =
           log a ++ [Status "Auto-saved"; After (after_ids a) 3000 ResetStatus;
                     After (after_ids a + 1) (autosave_secs a * 1000) AutosaveTick]).
Proof.
  destruct a as [w fp d en secs hid aid ids l]. simpl. intros -> ->. split.
  - intros -> Hw. run_methods. rewrite Hw. cbn. split; [reflexivity|].
    rewrite <- !app_assoc. apply in_or_app. right. left. reflexivity.
  - intros ->. run_methods. cbn. rewrite <- !app_assoc. split; reflexivity.
Qed.

Lemma autosave_tick_bound_path_witness :
  dirty (snd (_autosave_tick good_disk dirty_notes)) = false
  /\ log (snd (_autosave_tick good_disk saved_notes))
     = [Status "Auto-saved"; After 1 3000 ResetStatus; After 2 10000 AutosaveTick].
Proof.
  split.
  - apply (proj1 (autosave_tick_bound_path good_disk dirty_notes (py "/home/u/notes.txt")
                    eq_refl eq_refl)); reflexivity.
  - apply (proj2 (autosave_tick_bound_path good_disk saved_notes (py "/home/u/other.txt")
                    eq_refl eq_refl)). reflexivity.
Defined.

(** ** Timers *)

Lemma existsb_cancels_app id l1 l2 :
  existsb (cancels id) (l1 ++ l2) = existsb (cancels id) l1 || existsb (cancels id) l2.
Proof. apply existsb_app. Qed.

Lemma live_in_app cb whole p1 p2 :
  live_in cb whole (p1 ++ p2) = live_in cb whole p1 ++ live_in cb whole p2.
Proof. unfold live_in. apply flat_map_app. Qed.

(** More events cancel more: the timers of [part] live in a longer log are
    those live before that the added events do not cancel. *)
Lemma live_in_extend cb whole extra part :
  live_in cb (whole ++ extra) part
  = filter (fun id => negb (existsb (cancels id) extra)) (live_in cb whole part).
Proof.
  induction part as [|e part IH]; [reflexivity|].
  change (e :: part) with ([e] ++ part). rewrite !live_in_app, filter_app, IH.
  f_equal. destruct e; try reflexivity. cbn [live_in flat_map app].
  rewrite !app_nil_r, existsb_cancels_app, negb_orb.
  destruct (callback_eqb cb cb0); [|reflexivity]. cbn [andb].
  destruct (existsb (cancels id) whole); [reflexivity|]. cbn [negb andb filter].
  destruct (existsb (cancels id) extra); reflexivity.
Qed.

Lemma live_in_set cb whole part id :
  In id (live_in cb whole part) -> exists ms, In (After id ms cb) part.
Proof.
  induction part as [|e part IH]; [intros []|].
  change (e :: part) with ([e] ++ part). rewrite live_in_app.
  intros Hin. apply in_app_or in Hin as [Hin|Hin].
  - destruct e; try (destruct Hin). cbn [live_in flat_map app] in Hin.
    rewrite app_nil_r in Hin.
    destruct (callback_eqb cb cb0) eqn:Hcb; [|destruct Hin].
    destruct (negb (existsb (cancels id0) whole)); [|destruct Hin].
    destruct Hin as [<-|[]]. exists ms. left.
    destruct cb, cb0; try discriminate; reflexivity.
  - destruct (IH Hin) as [ms Hms]. exists ms. right. exact Hms.
Qed.

Lemma not_cancelled_fresh n l :
  Forall (fun e => match e with
                   | After id _ _ | AfterCancel id => id < n
                   | _ => True
                   end) l ->
  existsb (cancels n) l = false.
Proof.
  induction 1 as [|e l He _ IH]; [reflexivity|]. cbn [existsb]. rewrite IH.
  destruct e; try reflexivity. cbn [cancels].
  replace (id =? n) with false by (symmetry; apply Z.eqb_neq; lia). reflexivity.
Qed.

Lemma callback_eqb_refl cb : callback_eqb cb cb = true.
Proof. destruct cb; reflexivity. Qed.

(** Cancel the timer held, if any, and set a new one: the new one is then
    the only live timer of its callback. *)
Lemma live_rescheduled cb l n ms (held : option Z) :
  Forall (fun e => match e with
                   | After id _ _ | AfterCancel id => id < n
                   | _ => True
                   end) l ->
  live cb l = match held with Some i => [i] | None => [] end ->
  live cb (l ++ match held with Some i => [AfterCancel i] | None => [] end
             ++ [After n ms cb]) = [n].
Proof.
  intros Hfresh Hlive. unfold live in *.
  set (extra := match held with Some i => [AfterCancel i] | None => [] end
                ++ [After n ms cb]).
  rewrite live_in_app, live_in_extend, Hlive.
  assert (Hold : filter (fun id => negb (existsb (cancels id) extra))
                   match held with Some i => [i] | None => [] end = []).
  { destruct held as [i|]; [|reflexivity]. subst extra. cbn.
    rewrite Z.eqb_refl. reflexivity. }
  rewrite Hold. cbn [app].
  assert (Hnew : existsb (cancels n) (l ++ extra) = false).
  { rewrite existsb_cancels_app, (not_cancelled_fresh n l Hfresh). subst extra.
    destruct held as [i|]; [|reflexivity]. cbn.
    assert (Hi : In i (live_in cb l l)) by (rewrite Hlive; left; reflexivity).
    destruct (live_in_set _ _ _ _ Hi) as [ms' Hin].
    rewrite Forall_forall in Hfresh. specialize (Hfresh _ Hin). cbn in Hfresh.
    replace (i =? n) with false by (symmetry; apply Z.eqb_neq; lia). reflexivity. }
  remember (l ++ extra) as whole eqn:Hwhole. clear Hwhole Hold.
  subst extra. unfold live_in.
  destruct held as [i|]; cbn [app flat_map];
    rewrite Hnew, callback_eqb_refl; reflexivity.
Qed.

Lemma handed_out_extend n l extra :
  Forall (fun e => match e with
                   | After id _ _ | AfterCancel id => id < n
                   | _ => True
                   end) l ->
  Forall (fun e => match e with
                   | After id _ _ | AfterCancel id => id < n + 1
                   | _ => True
                   end) extra ->
  Forall (fun e => match e with
                   | After id _ _ | AfterCancel id => id < n + 1
                   | _ => True
                   end) (l ++ extra).
Proof.
  intros Hl Hextra. apply Forall_app. split; [|exact Hextra].
  eapply Forall_impl; [|exact Hl]. intros e. destruct e; auto; lia.
Qed.

Lemma held_handed_out cb l n i :
  Forall (fun e => match e with
                   | After id _ _ | AfterCancel id => id < n
                   | _ => True
                   end) l ->
  In i (live cb l) -> i < n.
Proof.
  intros Hfresh Hi. destruct (live_in_set _ _ _ _ Hi) as [ms Hin].
  rewrite Forall_forall in Hfresh. exact (Hfresh _ Hin).
Qed.

Lemma _schedule_highlight_run a :
  _schedule_highlight a =
  (Returned tt,
   set_highlight_after_id (Some (after_ids a))
     (set_log (log a ++ match _highlight_after_id a with
                        | Some i => [AfterCancel i]
                        | None => []
                        end ++ [After (after_ids a) 250 HighlightNow])
        (set_after_ids (after_ids a + 1) a))).
Proof.
  destruct a as [w fp d en secs hid aid ids l]. cbv [_schedule_highlight]. run_methods.
  destruct hid; cbn; rewrite <- ?app_assoc; reflexivity.
Qed.

Lemma schedule_autosave_run a :
  schedule_autosave a =
  (Returned tt,
   set_autosave_after_id (Some (after_ids a))
     (set_log (log a ++ match _autosave_after_id a with
                        | Some i => [AfterCancel i]
                        | None => []
                        end ++ [After (after_ids a) (autosave_secs a * 1000) AutosaveTick])
        (set_after_ids (after_ids a + 1) a))).
Proof.
  destruct a as [w fp d en secs hid aid ids l]. run_methods.
  destruct aid; cbn; rewrite <- ?app_assoc; reflexivity.
Qed.

Lemma _schedule_highlight_keeps a :
  highlight_timer_ok a ->
  highlight_timer_ok (snd (_schedule_highlight a))
  /\ _highlight_after_id (snd (_schedule_highlight a)) = Some (after_ids a).
Proof.
  intros [Hfresh Hlive]. rewrite _schedule_highlight_run.
  destruct a as [w fp d en secs hid aid ids l].
  unfold highlight_timer_ok, ids_handed_out in *.
  cbn [snd set_highlight_after_id set_log set_after_ids log after_ids
       _highlight_after_id] in *.
  split; [|reflexivity]. split.
  - apply handed_out_extend; [exact Hfresh|].
    destruct hid as [i|]; repeat constructor; try lia.
    assert (i < ids); [|lia].
    apply (held_handed_out HighlightNow l ids i Hfresh). rewrite Hlive. left. reflexivity.
  - apply live_rescheduled; assumption.
Qed.

(** X18: Debounce: in a window whose record of its highlight timer is right,
    [_schedule_highlight] cancels the timer held and sets a new one, so
    that the record is right again and exactly one highlight timer is
    live, the new one; and so after any number of key releases in a row. *)
Theorem highlight_timer_debounced (a : App) (n : nat) :
  highlight_timer_ok a ->
  highlight_timer_ok (key_releases n a)
  /\ live HighlightNow (log (key_releases (S n) a))
     = [after_ids (key_releases n a)]
  /\ _highlight_after_id (key_releases (S n) a) = Some (after_ids (key_releases n a)).
Proof.
  intros Hok.
  assert (Hn : highlight_timer_ok (key_releases n a)).
  { induction n as [|k IH]; [exact Hok|]. cbn [key_releases].
    apply _schedule_highlight_keeps. exact IH. }
  split; [exact Hn|]. cbn [key_releases].
  destruct (_schedule_highlight_keeps _ Hn) as [[_ Hlive] Hid].
  rewrite Hlive, Hid. split; reflexivity.
Qed.

Lemma highlight_timer_debounced_witness :
  live HighlightNow (log (key_releases 3 fresh_window)) = [2].
Proof.
  destruct (highlight_timer_debounced fresh_window 2) as (_ & Hlive & _).
  - split; [constructor | reflexivity].
  - exact Hlive.
Defined.

(** X19: The same for autosave: [schedule_autosave] cancels the timer held and
    sets one for the configured interval, which is then the only live
    autosave timer. *)
Theorem autosave_timer_rescheduled (a : App) :
  autosave_timer_ok a ->
  let a' := snd (schedule_autosave a) in
  autosave_timer_ok a'
  /\ live AutosaveTick (log a') = [after_ids a]
  /\ In (After (after_ids a) (autosave_secs a * 1000) AutosaveTick) (log a').
Proof.
  intros [Hfresh Hlive]. cbv zeta. rewrite schedule_autosave_run.
  destruct a as [w fp d en secs hid aid ids l].
  unfold autosave_timer_ok, ids_handed_out in *.
  cbn [snd set_autosave_after_id set_log set_after_ids log after_ids
       _autosave_after_id autosave_secs] in *.
  assert (Hl : live AutosaveTick
                 (l ++ match aid with Some i => [AfterCancel i] | None => [] end
                    ++ [After ids (secs * 1000) AutosaveTick]) = [ids])
    by (apply live_rescheduled; assumption).
  split; [split|split]; try exact Hl.
  - apply handed_out_extend; [exact Hfresh|].
    destruct aid as [i|]; repeat constructor; try lia.
    assert (i < ids); [|lia].
    apply (held_handed_out AutosaveTick l ids i Hfresh). rewrite Hlive. left. reflexivity.
  - apply in_or_app. right. apply in_or_app. right. left. reflexivity.
Qed.

Lemma autosave_timer_rescheduled_witness :
  live AutosaveTick (log (snd (schedule_autosave (snd (schedule_autosave fresh_window)))))
  = [1].
Proof.
  assert (H0 : autosave_timer_ok fresh_window) by (split; [constructor | reflexivity]).
  destruct (autosave_timer_rescheduled fresh_window H0) as (H1 & _).
  destruct (autosave_timer_rescheduled _ H1) as (_ & Hlive & _).
  exact Hlive.
Defined.

(** ** Settings *)

Section SettingsFacts.

Import Settings.

Lemma key_eqb_eq a b : key_eqb a b = true <-> a = b.
Proof. unfold key_eqb. destruct (list_eq_dec Z.eq_dec a b); split; congruence. Qed.

Lemma key_eqb_refl a : key_eqb a a = true.
Proof. apply key_eqb_eq. reflexivity. Qed.

Lemma get_set d k v k' :
  get (set d k v) k' = if key_eqb k' k then Some v else get d k'.
Proof.
  induction d as [|[k0 v0] d IH]; cbn [set get].
  - destruct (key_eqb k' k); reflexivity.
  - destruct (key_eqb k k0) eqn:Hk; cbn [get].
    + apply key_eqb_eq in Hk. subst k0. destruct (key_eqb k' k); reflexivity.
    + rewrite IH. destruct (key_eqb k' k0) eqn:Hk0; [|reflexivity].
      apply key_eqb_eq in Hk0. subst k0.
      destruct (key_eqb k' k) eqn:Hk'; [|reflexivity].
      apply key_eqb_eq in Hk'. subst k'. rewrite key_eqb_refl in Hk. discriminate.
Qed.

Lemma get_absent d k : ~ In k (map fst d) -> get d k = None.
Proof.
  induction d as [|[k0 v0] d IH]; [reflexivity|]. cbn [map fst In get]. intros Hn.
  destruct (key_eqb k k0) eqn:Hk.
  - apply key_eqb_eq in Hk. subst k0. destruct Hn. left. reflexivity.
  - apply IH. intros Hin. apply Hn. right. exact Hin.
Qed.

(** In {**a, **b} every key of [b] has the value of [b], every other key
    the one of [a]. *)
Lemma get_merge b : forall a k,
  NoDup (map fst b) ->
  get (merge a b) k = match get b k with Some v => Some v | None => get a k end.
Proof.
  induction b as [|[k0 v0] b IH]; intros a k Hnd; [reflexivity|].
  cbn [map fst] in Hnd. inversion Hnd as [|? ? Hnotin Hnd']. subst.
  unfold merge in *. cbn [fold_left fst snd get]. rewrite (IH _ _ Hnd'), get_set.
  destruct (key_eqb k k0) eqn:Hk; [|reflexivity].
  apply key_eqb_eq in Hk. subst k0. rewrite (get_absent b k Hnotin). reflexivity.
Qed.

End SettingsFacts.

(** X20: The settings loaded from a file that holds a JSON object are the
    defaults with the file's keys over them: a key of the file has the
    file's value, known to the editor or not, and a key it lacks has its
    default. *)
Theorem load_settings_merges (fs : Settings.Disk) (data : Settings.dict) :
  Settings.mkdir_ok fs = true ->
  Settings.settings_file fs = Some (Some (Settings.JObj data)) ->
  NoDup (map fst data) ->
  exists settings,
    Settings.load_settings fs = Returned settings
    /\ forall k,
         Settings.get settings k =
         match Settings.get data k with
         | Some v => Some v
         | None => Settings.get Settings.DEFAULT_SETTINGS k
         end.
Proof.
  intros Hdir Hfile Hnd. exists (Settings.merge Settings.DEFAULT_SETTINGS data).
  unfold Settings.load_settings, Settings.ensure_settings_dir. rewrite Hdir, Hfile.
  split; [reflexivity|]. intros k. apply get_merge. exact Hnd.
Qed.

Lemma load_settings_merges_witness :
  exists settings,
    Settings.load_settings disk_green = Returned settings
    /\ Settings.get settings (py "theme") = Some (Settings.JStr (py "green"))
    /\ Settings.get settings (py "font_size") = Some (Settings.JNum 12)
    /\ Settings.get settings (py "tab_width") = Some (Settings.JNum 4).
Proof.
  destruct (load_settings_merges disk_green green_settings eq_refl eq_refl)
    as (settings & Hload & Hget).
  - repeat constructor; simpl; intuition discriminate.
  - exists settings. split; [exact Hload|]. rewrite !Hget. repeat split.
Defined.

(** X21: With the settings directory in place, [load_settings] returns the
    defaults, and raises nothing, when there is no settings file, when the
    file cannot be read or parsed, and when it holds JSON that is no
    object. *)
Theorem load_settings_falls_back (fs : Settings.Disk) :
  Settings.mkdir_ok fs = true ->
  (forall data, Settings.settings_file fs <> Some (Some (Settings.JObj data))) ->
  Settings.load_settings fs = Returned Settings.DEFAULT_SETTINGS.
Proof.
  intros Hdir Hno. unfold Settings.load_settings, Settings.ensure_settings_dir.
  rewrite Hdir. destruct (Settings.settings_file fs) as [[j|]|]; try reflexivity.
  destruct j; try reflexivity. destruct (Hno items). reflexivity.
Qed.

Lemma load_settings_falls_back_witness :
  Settings.load_settings disk_list = Returned Settings.DEFAULT_SETTINGS.
Proof. apply (load_settings_falls_back disk_list); [reflexivity | discriminate]. Defined.

(** X22: When the settings directory cannot be made, neither function catches
    the error: [load_settings] raises instead of returning the defaults,
    and [save_settings] raises instead of passing over the failure as it
    does for a failed write. *)
Theorem settings_dir_failure_raises (fs : Settings.Disk) (settings : Settings.dict) :
  Settings.mkdir_ok fs = false ->
  Settings.load_settings fs = Raised OSError
  /\ Settings.save_settings fs settings = (Raised OSError, fs).
Proof.
  intros Hdir. unfold Settings.load_settings, Settings.save_settings,
    Settings.ensure_settings_dir. rewrite Hdir. split; reflexivity.
Qed.

Lemma settings_dir_failure_raises_witness :
  Settings.load_settings disk_no_dir = Raised OSError.
Proof.
  apply (proj1 (settings_dir_failure_raises disk_no_dir Settings.DEFAULT_SETTINGS eq_refl)).
Defined.

(** X23: Save, then load: with the directory in place, [save_settings] returns
    whether the write succeeds or not; after a write that succeeded, a
    load gives every key of the saved settings its saved value, and every
    other key its default. *)
Theorem save_then_load_settings (fs : Settings.Disk) (settings : Settings.dict) :
  Settings.mkdir_ok fs = true ->
  NoDup (map fst settings) ->
  fst (Settings.save_settings fs settings) = Returned tt
  /\ (Settings.writable fs = true ->
      exists loaded,
        Settings.load_settings (snd (Settings.save_settings fs settings)) = Returned loaded
        /\ forall k,
             Settings.get loaded k =
             match Settings.get settings k with
             | Some v => Some v
             | None => Settings.get Settings.DEFAULT_SETTINGS k
             end).
Proof.
  intros Hdir Hnd. unfold Settings.save_settings, Settings.ensure_settings_dir.
  rewrite Hdir. destruct (Settings.writable fs) eqn:Hw; cbn [fst snd].
  - split; [reflexivity|]. intros _.
    exists (Settings.merge Settings.DEFAULT_SETTINGS settings).
    unfold Settings.load_settings, Settings.ensure_settings_dir.
    cbn [Settings.mkdir_ok Settings.settings_file].
    split; [reflexivity|]. intros k. apply get_merge. exact Hnd.
  - split; [reflexivity | discriminate].
Qed.

Lemma save_then_load_settings_witness :
  exists loaded,
    Settings.load_settings (snd (Settings.save_settings disk_list green_settings))
      = Returned loaded
    /\ Settings.get loaded (py "theme") = Some (Settings.JStr (py "green"))
    /\ Settings.get loaded (py "autosave_secs") = Some (Settings.JNum 10).
Proof.
  destruct (save_then_load_settings disk_list green_settings eq_refl)
    as (_ & Hload).
  - repeat constructor; simpl; intuition discriminate.
  - destruct (Hload eq_refl) as (loaded & Hl & Hget).
    exists loaded. split; [exact Hl|]. rewrite !Hget. split; reflexivity.
Defined.

(** ** More on highlighting *)

Lemma len_app {A} (l1 l2 : list A) : len (l1 ++ l2) = len l1 + len l2.
Proof. unfold len. rewrite length_app. lia. Qed.

Lemma token_spans_tile tokens : forall pos,
  tiles pos (token_spans tokens pos) (pos + len (List.concat (map snd tokens))).
Proof.
  induction tokens as [|[t value] rest IH]; intros pos; cbn [token_spans map snd List.concat].
  - cbn [tiles]. change (len (@nil char)) with 0. lia.
  - rewrite len_app. destruct (Z.eqb_spec (len value) 0) as [Hz|Hnz].
    + rewrite Hz. specialize (IH pos).
      replace (pos + (0 + len (List.concat (map snd rest))))
        with (pos + len (List.concat (map snd rest))) by lia. exact IH.
    + cbn [tiles start stop]. split; [reflexivity|].
      specialize (IH (pos + len value)).
      replace (pos + (len value + len (List.concat (map snd rest))))
        with (pos + len value + len (List.concat (map snd rest))) by lia. exact IH.
Qed.

Lemma token_spans_tags tokens : forall pos,
  map tag (token_spans tokens pos)
  = map (fun tv => tag_for (fst tv)) (filter nonempty_token tokens).
Proof.
  induction tokens as [|[t value] rest IH]; intros pos; [reflexivity|].
  cbn [token_spans filter]. unfold nonempty_token at 1. cbn [snd].
  destruct (len value =? 0); cbn [negb map]; [apply IH|].
  cbn [tag fst]. f_equal. apply IH.
Qed.

Lemma added_tags_app l1 l2 : added_tags (l1 ++ l2) = added_tags l1 ++ added_tags l2.
Proof. unfold added_tags. apply flat_map_app. Qed.

Lemma added_tags_spans content spans :
  added_tags (map (tag_add_of content) spans) = map tag spans.
Proof.
  induction spans as [|s spans IH]; [reflexivity|].
  cbn [map added_tags flat_map tag_add_of app] in *. f_equal. exact IH.
Qed.

Lemma added_tags_cleared Lexer lex : added_tags (cleared Lexer lex) = [].
Proof. unfold cleared. destruct lex; reflexivity. Qed.

Lemma tag_for_known t : In (tag_for t) syntax_tags.
Proof.
  unfold tag_for, syntax_tags.
  repeat match goal with |- context [if ?b then _ else _] => destruct b end;
    simpl; tauto.
Qed.

Lemma _clear_syntax_tags_run a :
  _clear_syntax_tags a = (Returned tt, set_log (log a ++ map TagRemove syntax_tags) a).
Proof.
  destruct a as [w fp d en secs hid aid ids l].
  cbv [_clear_syntax_tags syntax_tags fold_right emit modify bind ret set_log log
       text file_path dirty autosave_enabled autosave_secs _highlight_after_id
       _autosave_after_id after_ids map].
  rewrite <- !app_assoc. reflexivity.
Qed.

(** X24: When the lexer's tokens, read one after the other, give the text back,
    the spans of a pass over a text that is not blank lie end to end from
    offset 0 to the end of the text: no character is left between two
    spans, none is in two. *)
Theorem highlight_tiles_text (Lexer : Type)
    (lex_ : str -> Lexer -> list (toktype * str))
    (guess_lexer_for_filename : str -> str -> option Lexer) (TextLexer : Lexer)
    (a : App) :
  strip (Tk.content (text a)) <> [] ->
  (forall lexer, List.concat (map snd (lex_ (Tk.content (text a)) lexer)) = Tk.content (text a)) ->
  tiles 0 (highlight Lexer (Some lex_) guess_lexer_for_filename TextLexer a)
    (len (Tk.content (text a))).
Proof.
  intros Hblank Hfaithful. unfold highlight.
  destruct (strip (Tk.content (text a))) as [|c s]; [congruence|].
  set (lexer := match guess_lexer_for_filename _ _ with Some l => l | None => TextLexer end).
  pose proof (token_spans_tile (lex_ (Tk.content (text a)) lexer) 0) as Ht.
  rewrite Hfaithful in Ht. exact Ht.
Qed.

Lemma highlight_tiles_text_witness :
  tiles 0 (highlight unit (Some (fun _ _ => def_f_tokens)) (fun _ _ => None) tt def_f) 5.
Proof.
  apply (highlight_tiles_text unit (fun _ _ => def_f_tokens) (fun _ _ => None) tt def_f).
  - discriminate.
  - reflexivity.
Defined.

(** X25: A pass over a text that is not blank, Pygments being there, adds one
    tag per token that is not empty, in the order of the tokens: the tag
    [tag_for] gives for the token's type.  The tokens are those of the
    lexer guessed from the file name and the text, or of TextLexer when
    the guess fails; and each tag is one of those the next pass removes
    first. *)
Theorem highlight_tags_each_token (Lexer : Type)
    (lex_ : str -> Lexer -> list (toktype * str))
    (guess_lexer_for_filename : str -> str -> option Lexer) (TextLexer : Lexer)
    (a : App) :
  strip (Tk.content (text a)) <> [] ->
  let content := Tk.content (text a) in
  let lexer := match guess_lexer_for_filename (lexer_filename a) content with
               | Some l => l
               | None => TextLexer
               end in
  let a' := snd (_highlight_now Lexer (Some lex_) guess_lexer_for_filename TextLexer a) in
  added_tags (log a') =
    added_tags (log a)
    ++ map (fun tv => tag_for (fst tv)) (filter nonempty_token (lex_ content lexer))
  /\ (forall t, In t (map (fun tv => tag_for (fst tv)) (filter nonempty_token (lex_ content lexer))) ->
      In (TagRemove t) (log (snd (_clear_syntax_tags a')))).
Proof.
  intros Hblank. cbv zeta. split.
  - rewrite _highlight_now_run. cbn [snd]. rewrite log_set_log.
    rewrite !added_tags_app, added_tags_cleared, added_tags_spans. cbn [app].
    f_equal. unfold highlight, lexer_filename.
    destruct (strip (Tk.content (text a))) as [|c s]; [congruence|].
    apply token_spans_tags.
  - intros t Hin. rewrite _clear_syntax_tags_run. cbn [snd]. rewrite log_set_log.
    apply in_or_app. right. apply in_map.
    apply in_map_iff in Hin as ([ty value] & <- & _). apply tag_for_known.
Qed.

Lemma highlight_tags_each_token_witness :
  added_tags (log (snd (_highlight_now unit (Some lex_def_f) (fun _ _ => None) tt def_f)))
  = ["tok-kw"; "tok-text"; "tok-func"].
Proof.
  destruct (highlight_tags_each_token unit lex_def_f (fun _ _ => None) tt def_f)
    as [Htags _].
  - discriminate.
  - rewrite Htags. reflexivity.
Defined.

(** ** Open, edit, save *)

Lemma _on_text_modified_keeps a :
  file_path (snd (_on_text_modified a)) = file_path a
  /\ log (snd (_on_text_modified a)) =
       log a ++ (if dirty a then [] else [Title (file_path a) true])
             ++ [Caret (Tk.index_of (Tk.content (text a)) (Tk.insert_mark (text a)))].
Proof.
  destruct a as [w fp d en secs hid aid ids l].
  destruct d; run_methods; cbn; rewrite <- ?app_assoc; split; reflexivity.
Qed.

(** X26: The <<Modified>> handler raises the dirty flag and rewrites the title
    only when the flag was down: run again, on a document now dirty, it
    only refreshes the caret label. *)
Theorem modified_handler_marks_once (a : App) :
  let a1 := snd (_on_text_modified a) in
  let a2 := snd (_on_text_modified a1) in
  dirty a1 = true
  /\ dirty a2 = true
  /\ text a2 = text a
  /\ log a2 = log a1 ++ [Caret (Tk.index_of (Tk.content (text a))
                                  (Tk.insert_mark (text a)))].
Proof.
  cbv zeta.
  destruct (_on_text_modified_run a) as (_ & Hd1 & Ht1).
  destruct (_on_text_modified_run (snd (_on_text_modified a))) as (_ & Hd2 & Ht2).
  destruct (_on_text_modified_keeps (snd (_on_text_modified a))) as (_ & Hlog).
  rewrite Hd1 in Hlog. rewrite Ht1 in Hlog, Ht2.
  repeat split; assumption.
Qed.


